(** * env_file: POSIX shell assignments in a text file

    A shallow embedding of [lib/env_file.py]: the three line classifiers
    ([match_var], [match_active_var], [is_exported]), the value quoting
    ([shell_escape]) and the in-memory part of [apply] (source lines
    119-179), followed by the properties of the rewrite that the
    specification states.

    Strings are sequences of 8-bit characters; a file is the list of
    lines that [readlines()] returns. *)

From Stdlib Require Import Bool Arith Lia List Ascii String.
Import ListNotations.
Open Scope list_scope.
Open Scope string_scope.

(** ** Characters and small string helpers *)

Definition newline : ascii := "010"%char.
Definition nl : string := String newline EmptyString.

Fixpoint mem_char (c : ascii) (s : string) : bool :=
  match s with
  | EmptyString => false
  | String d s' => Ascii.eqb d c || mem_char c s'
  end.

Definition no_newline (s : string) : bool := negb (mem_char newline s).

(** [s[-1]] of a non-empty string. *)
Fixpoint last_char (s : string) : option ascii :=
  match s with
  | EmptyString => None
  | String c EmptyString => Some c
  | String _ s' => last_char s'
  end.

(** ** The interpreter

    The module runs on the interpreter of the managed host.  Two things
    the source relies on differ between the two major versions: whether
    [shlex] has a [quote] attribute, and which characters [\s] accepts
    in a [str] pattern. *)

Inductive python : Type := Python2 | Python3.

Inductive exn : Type := AttributeError | NameError.

Inductive result (A : Type) : Type :=
| Ok (a : A)
| Raise (e : exn).
Arguments Ok {A} a.
Arguments Raise {A} e.

Definition code (c : ascii) : nat := nat_of_ascii c.

(** [\s]: in Python 2 the six ASCII blanks; in Python 3 the characters
    for which [str.isspace()] holds (below 256: the ASCII blanks, the
    separators 0x1c-0x1f, NEL 0x85 and NBSP 0xa0). *)
Definition re_space (py : python) (c : ascii) : bool :=
  let n := code c in
  (((9 <=? n) && (n <=? 13)) || (n =? 32) ||
   match py with
   | Python2 => false
   | Python3 => ((28 <=? n) && (n <=? 31)) || (n =? 133) || (n =? 160)
   end)%nat.

(** ** Python's [re], for the fragment the source uses *)

Module Re.

Inductive atom : Type :=
| Lit (c : ascii)       (* an escaped or ordinary character *)
| Space                 (* \s *)
| Dot.                  (* .  (no DOTALL: anything but a newline) *)

Inductive item : Type :=
| Bol                   (* ^ *)
| Eol                   (* $ *)
| One (a : atom)
| Opt (a : atom)        (* a? *)
| Star (a : atom)       (* a* *)
| Plus (a : atom).      (* a+ *)

Definition regex : Type := list item.
Bind Scope list_scope with regex.

Definition accepts (py : python) (a : atom) (c : ascii) : bool :=
  match a with
  | Lit d => Ascii.eqb c d
  | Space => re_space py c
  | Dot => negb (Ascii.eqb c newline)
  end.

(** [$] without MULTILINE: the end of the string, or just before a
    newline that is its last character. *)
Definition at_end (s : string) : bool :=
  match s with
  | EmptyString => true
  | String c EmptyString => Ascii.eqb c newline
  | _ => false
  end.

(** Zero or more characters accepted by [ok], then the continuation
    [k].  [bol] tells whether the position is still the start. *)
Fixpoint star (ok : ascii -> bool) (k : bool -> string -> bool)
         (bol : bool) (s : string) : bool :=
  k bol s ||
  match s with
  | EmptyString => false
  | String c s' => ok c && star ok k false s'
  end.

(** Backtracking matcher: is there a way to match [p] on a prefix of
    [s]?  ([re.match] returns a match object or [None]; the source only
    uses its truth value.) *)
Fixpoint go (py : python) (p : regex) (bol : bool) (s : string)
         {struct p} : bool :=
  match p with
  | [] => true
  | Bol :: p' => bol && go py p' bol s
  | Eol :: p' => at_end s && go py p' bol s
  | One a :: p' =>
      match s with
      | EmptyString => false
      | String c s' => accepts py a c && go py p' false s'
      end
  | Opt a :: p' =>
      go py p' bol s ||
      match s with
      | EmptyString => false
      | String c s' => accepts py a c && go py p' false s'
      end
  | Star a :: p' => star (accepts py a) (go py p') bol s
  | Plus a :: p' =>
      match s with
      | EmptyString => false
      | String c s' =>
          accepts py a c && star (accepts py a) (go py p') false s'
      end
  end.

(** [re.match(pattern, line)]: anchored at position 0. *)
Definition rmatch (py : python) (p : regex) (line : string) : bool :=
  go py p true line.

(** A run of ordinary characters in a pattern. *)
Fixpoint lits (s : string) : regex :=
  match s with
  | EmptyString => []
  | String c s' => One (Lit c) :: lits s'
  end.

(** [re.escape(name)]: the pattern that matches [name] and nothing
    else, whatever characters it holds. *)
Definition escape (name : string) : regex := lits name.

End Re.
Import Re.

(** ** Line classifier (source lines 71-82) *)

(** ['^\s*#?\s*%s=.*$'] and ['^\s*#?\s*export\s+%s=.*$'] *)
Definition match_var (py : python) (name line : string) : bool :=
  let name := escape name in
  rmatch py ([Bol; Star Space; Opt (Lit "#"); Star Space]
               ++ name ++ [One (Lit "="); Star Dot; Eol]) line
  || rmatch py ([Bol; Star Space; Opt (Lit "#"); Star Space]
                  ++ lits "export" ++ [Plus Space]
                  ++ name ++ [One (Lit "="); Star Dot; Eol]) line.

(** ['^\s*%s=.*$'] and ['^\s*export\s+%s=.*$'] *)
Definition match_active_var (py : python) (name line : string) : bool :=
  let name := escape name in
  rmatch py ([Bol; Star Space]
               ++ name ++ [One (Lit "="); Star Dot; Eol]) line
  || rmatch py ([Bol; Star Space]
                  ++ lits "export" ++ [Plus Space]
                  ++ name ++ [One (Lit "="); Star Dot; Eol]) line.

(** ['^\s*export\s*.+$'] *)
Definition is_exported (py : python) (line : string) : bool :=
  rmatch py ([Bol; Star Space] ++ lits "export"
               ++ [Star Space; Plus Dot; Eol]) line.

(** ** Value quoting (source lines 84-89) *)

(** [str.replace(old, new)]: every non-overlapping occurrence of [old],
    left to right.  [skip] counts the characters of a replaced
    occurrence that are still to be passed over. *)
Fixpoint replace_from (old new : string) (skip : nat) (s : string) : string :=
  match s with
  | EmptyString => EmptyString
  | String c s' =>
      match skip with
      | S k => replace_from old new k s'
      | O =>
          if prefix old s
          then new ++ replace_from old new (String.length old - 1) s'
          else String c (replace_from old new 0 s')
      end
  end.

Definition replace (old new s : string) : string :=
  match old with
  | EmptyString =>
      (* an empty [old] matches before every character and at the end *)
      (fix between (s : string) : string :=
         match s with
         | EmptyString => new
         | String c s' => new ++ String c (between s')
         end) s
  | _ => replace_from old new 0 s
  end.

Definition in_range (lo hi : nat) (c : ascii) : bool :=
  ((lo <=? code c) && (code c <=? hi))%nat.

(** The characters outside [[^\w@%+=:,./-]] with [re.ASCII]. *)
Definition shlex_safe (c : ascii) : bool :=
  in_range 97 122 c || in_range 65 90 c || in_range 48 57 c
  || mem_char c "_@%+=:,./-".

Fixpoint all_chars (ok : ascii -> bool) (s : string) : bool :=
  match s with
  | EmptyString => true
  | String c s' => ok c && all_chars ok s'
  end.

Definition squote : string := "'".
Definition dquote : string := String "034"%char EmptyString.

(** [__import__("shlex", fromlist=['quote']).quote(text)].  Python 2's
    [shlex] has no [quote], so the attribute lookup raises; Python 3's
    (3.3 and later) is
    [[
      if not s: return "''"
      if _find_unsafe(s) is None: return s
      return "'" + s.replace("'", <'> <dq> <'> <dq> <'>) + "'"
    ]] *)
Definition shlex_quote (py : python) (text : string) : result string :=
  match py with
  | Python2 => Raise AttributeError
  | Python3 =>
      Ok (match text with
          | EmptyString => "''"
          | _ =>
              if all_chars shlex_safe text then text
              else squote
                     ++ replace "'" (squote ++ dquote ++ squote ++ dquote
                                       ++ squote) text
                     ++ squote
          end)
  end.

(** [try: shlex.quote(text) / except: "'%s'" % text.replace("'", "'\\''")] *)
Definition shell_escape (py : python) (text : string) : string :=
  match shlex_quote py text with
  | Ok quoted => quoted
  | Raise _ => squote ++ replace "'" "'\''" text ++ squote
  end.

(** ** The rewrite (source lines 119-179) *)

Inductive state : Type := absent | present | local | exported.

Definition is_absent (st : state) : bool :=
  match st with absent => true | _ => false end.

(** What the in-memory part of [apply] leaves behind: the lines that
    are written back when [changed] holds, the flag and the message. *)
Record outcome : Type := Outcome {
  env_lines : list string;
  changed : bool;
  msg : string
}.

(** [if not env_lines: env_lines.append('\n')] *)
Definition guard_empty (lines : list string) : list string :=
  match lines with
  | [] => [nl]
  | _ => lines
  end.

(** [env_lines[-1] == '' or env_lines[-1][-1] != '\n'] *)
Definition unterminated (lines : list string) : bool :=
  match last_char (last lines EmptyString) with
  | None => true
  | Some c => negb (Ascii.eqb c newline)
  end.

(** The [while] loop of lines 161-166: every remaining line that is an
    active declaration is deleted, the others are stepped over. *)
Fixpoint prune (py : python) (var : string) (lines : list string)
  : list string :=
  match lines with
  | [] => []
  | line :: rest =>
      if match_active_var py var line
      then prune py var rest
      else line :: prune py var rest
  end.

(** [line_value = '%s=%s\n' % (var, shell_escape(val))] *)
Definition line_value (py : python) (var val : string) : string :=
  var ++ "=" ++ shell_escape py val ++ nl.

(** [(state == 'exported') or (state == 'present' and is_exported(line))] *)
Definition should_export (py : python) (st : state) (line : string) : bool :=
  match st with
  | exported => true
  | present => is_exported py line
  | _ => false
  end.

(** The state of the [for] loop: the lines, [changed], [matched_line]
    and [msg]. *)
Record scan : Type := Scan {
  s_lines : list string;
  s_changed : bool;
  s_matched : bool;
  s_msg : string
}.

Definition keep (line : string) (r : scan) : scan :=
  Scan (line :: s_lines r) (s_changed r) (s_matched r) (s_msg r).

(** The [for index, line in enumerate(env_lines)] loop (lines 134-167),
    from the line at [index] on; [changed0] is [changed] on entry. *)
Fixpoint update (py : python) (var line_value : string) (st : state)
         (changed0 : bool) (lines : list string) : scan :=
  match lines with
  | [] => Scan [] changed0 false EmptyString
  | line :: rest =>
      if is_absent st then
        if match_active_var py var line
        then Scan rest true false "var removed"
        else keep line (update py var line_value st changed0 rest)
      else
        if match_var py var line then
          let new_line :=
            if should_export py st line
            then "export " ++ line_value else line_value in
          let var_changed := negb (String.eqb line new_line) in
          if var_changed
          then Scan (new_line :: prune py var rest)
                    (changed0 || var_changed) true "var changed"
          else Scan (new_line :: rest) (changed0 || var_changed) true EmptyString
        else keep line (update py var line_value st changed0 rest)
  end.

(** Lines 169-179: add the variable when no declaration was found. *)
Definition add_missing (line_value : string) (st : state) (r : scan)
  : outcome :=
  if negb (is_absent st) && negb (s_matched r) then
    let new_line :=
      match st with
      | local => line_value
      | _ => "export " ++ line_value
      end in
    Outcome (s_lines r ++ [new_line]) true "var added"
  else Outcome (s_lines r) (s_changed r) (s_msg r).

(** [apply], from [changed = False] to the end of the add step.  The
    trailing-newline branch evaluates [ini_lines], a name bound
    nowhere in the module. *)
Definition apply (py : python) (lines : list string) (var val : string)
           (st : state) : result outcome :=
  let env_lines := guard_empty lines in
  if unterminated env_lines then Raise NameError
  else
    let changed := false in
    let line_value := line_value py var val in
    Ok (add_missing line_value st
          (update py var line_value st changed env_lines)).

(** ** Vocabulary of the statements *)

(** A line that ends in a newline, as [readlines()] returns them for
    every line but possibly the last. *)
Definition terminated (line : string) : bool :=
  match last_char line with
  | Some c => Ascii.eqb c newline
  | None => false
  end.

(** The line without its leading blanks. *)
Fixpoint lstrip (py : python) (s : string) : string :=
  match s with
  | EmptyString => EmptyString
  | String c s' => if re_space py c then lstrip py s' else s
  end.

(** The first character after the leading blanks is a comment marker. *)
Definition commented (py : python) (line : string) : bool :=
  prefix "#" (lstrip py line).

(** No declaration of [var], commented or not. *)
Definition undeclared (py : python) (var line : string) : Prop :=
  match_var py var line = false.

(** No active declaration of [var]. *)
Definition inactive (py : python) (var line : string) : Prop :=
  match_active_var py var line = false.

(** The export marker, or nothing. *)
Definition marker (b : bool) : string := if b then "export " else EmptyString.

(** Quoting as the specification words it: the value character by
    character, each single quote replaced by [rep]. *)
Fixpoint quote_each (rep : string) (s : string) : string :=
  match s with
  | EmptyString => EmptyString
  | String c s' =>
      (if Ascii.eqb c "'" then rep else String c EmptyString)
        ++ quote_each rep s'
  end.

(** The number of active declarations of [var]. *)
Definition active_count (py : python) (var : string) (lines : list string)
  : nat :=
  List.length (filter (match_active_var py var) lines).

(** The requests on which a second run is asked to change nothing. *)
Definition rerun_stable (py : python) (lines : list string)
           (var val : string) (st : state) : Prop :=
  match st with
  | absent =>
      (active_count py var lines <= 1)%nat
      /\ forall l, lines = [l] -> inactive py var l
  | present =>
      no_newline val = true /\ no_newline var = true
      /\ prefix "export" (lstrip py var) = false
  | local | exported => no_newline val = true
  end.

(** ** The target file (source lines 92-117 and 181-199) *)

Definition carriage_return : ascii := "013"%char.

(** Text mode on reading, once the bytes are decoded: Python 3 turns
    [\r\n] and a lone [\r] into [\n]; Python 2's mode ['r'] hands the
    bytes over as they are. *)
Fixpoint universal_newlines (s : string) : string :=
  match s with
  | EmptyString => EmptyString
  | String c s' =>
      if Ascii.eqb c carriage_return then
        String newline
          match s' with
          | EmptyString => EmptyString
          | String d s'' =>
              if Ascii.eqb d newline
              then universal_newlines s'' else universal_newlines s'
          end
      else String c (universal_newlines s')
  end.

Definition decode_newlines (py : python) (content : string) : string :=
  match py with
  | Python2 => content
  | Python3 => universal_newlines content
  end.

(** The text cut after each newline, the newline kept. *)
Fixpoint split_lines (s : string) : list string :=
  match s with
  | EmptyString => []
  | String c s' =>
      if Ascii.eqb c newline then String c EmptyString :: split_lines s'
      else
        match split_lines s' with
        | [] => [String c EmptyString]
        | l :: ls => String c l :: ls
        end
  end.

(** [target_file.readlines()], on the text that the interpreter holds
    for the file: on Python 2 the bytes of the file, one character per
    byte; on Python 3 the characters that the codec of the host has
    decoded from them (a file that it cannot decode is the target
    [Undecodable] below, and never gets here). *)
Definition readlines (py : python) (content : string) : list string :=
  split_lines (decode_newlines py content).

(** [f.writelines(env_lines)], and [''.join(env_lines)] of the diff. *)
Fixpoint writelines (lines : list string) : string :=
  match lines with
  | [] => EmptyString
  | l :: ls => l ++ writelines ls
  end.

(** What [apply] asks of the module object. *)
Record ansible_module : Type := AnsibleModule {
  check_mode : bool;
  diff_mode : bool                     (* module._diff *)
}.

(** [os.path.dirname(target)], as [os.path.exists] and [os.makedirs]
    see it. *)
Inductive parent : Type :=
| NoParent              (* the empty string: a bare file name *)
| ParentMissing
| ParentExists.

(** The codec of the host as far as a run depends on it.  Python 3
    opens the target and the temporary file in text mode, with the
    preferred encoding of the locale and strict errors: reading decodes
    and writing encodes, and either may fail.  Python 2 reads and
    writes the bytes that it holds. *)
Record host : Type := Host {
  encodable : string -> bool           (* the codec can encode this text *)
}.

(** The target on disk ([main] has turned directories away), as the
    interpreter sees it.  [File content]: a file that it can read,
    [content] being the text that it reads (the bytes themselves on
    Python 2, the decoded characters on Python 3; characters are code
    points below 256).  [Undecodable bytes]: a file whose bytes the
    codec of Python 3 rejects. *)
Inductive target : Type :=
| Missing (dir : parent)
| File (content : string)
| Undecodable (bytes : string).

(** What [apply] returns, and the target it leaves behind (a file that
    was written holds the text that was written: the codec decodes
    what it has encoded). *)
Record report : Type := Report {
  r_changed : bool;
  r_backup : bool;                     (* backup_file is not None *)
  r_diff_before : string;
  r_diff_after : string;
  r_msg : string;
  r_target : target
}.

Inductive exit : Type :=
| FailJson (rc : nat)                  (* module.fail_json: the run ends *)
| Uncaught (e : exn)
| MakedirsError                        (* os.makedirs('') *)
| DecodeError                          (* UnicodeDecodeError in readlines() *)
| EncodeError                          (* UnicodeEncodeError in writelines() *)
| Return (r : report).

(** Lines 103-114: the lines to work on, and the target once the
    missing directory is made. *)
Definition load (py : python) (m : ansible_module) (t : target)
           (create : bool) : exit + (list string * target) :=
  match t with
  | File content => inr (readlines py content, t)
  | Undecodable bytes =>
      match py with
      | Python2 => inr (readlines Python2 bytes, t)
      | Python3 => inl DecodeError
      end
  | Missing dir =>
      if negb create then inl (FailJson 257)
      else
        match dir with
        | ParentExists => inr ([], t)
        | ParentMissing =>
            inr ([], if check_mode m then t else Missing ParentExists)
        | NoParent =>
            if check_mode m then inr ([], t) else inl MakedirsError
        end
  end.

(** Lines 186-190 on Python 3: the text goes through the codec, and a
    [UnicodeEncodeError] is no [IOError], so nothing catches it. *)
Definition write_fails (py : python) (h : host) (text : string) : bool :=
  match py with
  | Python2 => false
  | Python3 => negb (encodable h text)
  end.

(** [apply(module, target, var, val, state, create, backup)], the whole
    of it, with the collaborators ([backup_local], [mkstemp],
    [atomic_move]) doing their work. *)
Definition apply_target (py : python) (h : host) (m : ansible_module)
           (t : target) (var val : string) (st : state)
           (create backup : bool) : exit :=
  match load py m t create with
  | inl stop => stop
  | inr (lines, t') =>
      let before := if diff_mode m then writelines lines else EmptyString in
      match apply py lines var val st with
      | Raise e => Uncaught e
      | Ok o =>
          let write := changed o && negb (check_mode m) in
          if write && write_fails py h (writelines (env_lines o))
          then EncodeError
          else
            Return (Report (changed o) (write && backup) before EmptyString
                           (msg o)
                           (if write then File (writelines (env_lines o))
                            else t'))
      end
  end.

(** ** More vocabulary *)

(** Only blanks. *)
Definition blanks (py : python) (s : string) : Prop :=
  all_chars (re_space py) s = true.

(** [<name>=<anything up to the end of the line>]. *)
Definition assignment_text (name s : string) : Prop :=
  exists body tail,
    s = name ++ "=" ++ body ++ tail
    /\ no_newline body = true
    /\ (tail = EmptyString \/ tail = nl).

(** An assignment, or [export], blanks and an assignment. *)
Definition declaration_text (py : python) (name s : string) : Prop :=
  assignment_text name s
  \/ exists sp rest,
      s = "export" ++ sp ++ rest
      /\ sp <> EmptyString /\ blanks py sp
      /\ assignment_text name rest.

(** A line as [readlines()] cuts them: some text without newline, then
    one newline. *)
Definition whole_line (l : string) : Prop :=
  exists body, l = body ++ nl /\ no_newline body = true.

(** [n] runs in a row, each on the lines of the one before. *)
Fixpoint apply_times (n : nat) (py : python) (lines : list string)
         (var val : string) (st : state) : result (list string) :=
  match n with
  | O => Ok lines
  | S k =>
      match apply py lines var val st with
      | Raise e => Raise e
      | Ok o => apply_times k py (env_lines o) var val st
      end
  end.

(** Reading [quote_each] back: a quote stands for itself and hides the
    [k] characters after it. *)
Fixpoint unquote_each (k skip : nat) (s : string) : string :=
  match s with
  | EmptyString => EmptyString
  | String c s' =>
      match skip with
      | S n => unquote_each k n s'
      | O =>
          if Ascii.eqb c "'" then String c (unquote_each k k s')
          else String c (unquote_each k 0 s')
      end
  end.

(** No carriage return, where the interpreter would translate one on
    reading. *)
Definition cr_free (py : python) (s : string) : bool :=
  match py with
  | Python2 => true
  | Python3 => negb (mem_char carriage_return s)
  end.

(** The lines that [apply] starts from, for a target. *)
Definition lines_of (py : python) (t : target) : list string :=
  match t with
  | File content => readlines py content
  | Missing _ | Undecodable _ => []
  end.

(** A target that [apply] gets through: a file that the interpreter
    can read and that is empty or ends in a newline, or a missing file
    that may be created. *)
Definition loadable (py : python) (t : target) (create : bool) : Prop :=
  match t with
  | File content =>
      decode_newlines py content = EmptyString
      \/ terminated (decode_newlines py content) = true
  | Missing dir => create = true /\ dir <> NoParent
  | Undecodable _ => False
  end.

(** The requests that a file takes and gives back: a name and a value
    that stay on one line when written and read again (and, under
    present, a name that [is_exported] does not mistake for the
    keyword); under absent, a file with at most one active
    declaration. *)
Definition rereadable (py : python) (lines : list string)
           (var val : string) (st : state) : Prop :=
  match st with
  | absent => (active_count py var lines <= 1)%nat
  | _ =>
      no_newline var = true /\ no_newline val = true
      /\ cr_free py var = true /\ cr_free py val = true
      /\ (st = present -> prefix "export" (lstrip py var) = false)
  end.

(** The five ways a run of [apply] ends, by what the scan finds. *)
Inductive run (py : python) (lines : list string) (var val : string)
          (st : state) : outcome -> Prop :=
| run_nothing :
    st = absent -> Forall (inactive py var) lines ->
    run py lines var val st (Outcome (guard_empty lines) false EmptyString)
| run_removed pre line post :
    st = absent -> lines = (pre ++ line :: post)%list ->
    Forall (inactive py var) pre -> match_active_var py var line = true ->
    run py lines var val st (Outcome (pre ++ post) true "var removed")
| run_added :
    st <> absent -> Forall (undeclared py var) lines ->
    run py lines var val st
        (Outcome (guard_empty lines
                    ++ [marker (negb (is_absent st)
                                && match st with local => false | _ => true end)
                          ++ line_value py var val])
                 true "var added")
| run_kept pre line post :
    st <> absent -> lines = (pre ++ line :: post)%list ->
    Forall (undeclared py var) pre -> match_var py var line = true ->
    line = marker (should_export py st line) ++ line_value py var val ->
    run py lines var val st (Outcome lines false EmptyString)
| run_changed pre line post :
    st <> absent -> lines = (pre ++ line :: post)%list ->
    Forall (undeclared py var) pre -> match_var py var line = true ->
    line <> marker (should_export py st line) ++ line_value py var val ->
    run py lines var val st
        (Outcome (pre ++ (marker (should_export py st line)
                            ++ line_value py var val)%string
                      :: prune py var post)
                 true "var changed").

(** * Properties *)

(** ** Strings *)

Lemma append_nil_r (s : string) : s ++ EmptyString = s.
Proof. induction s as [|c s IH]; simpl; [reflexivity | now rewrite IH]. Qed.

Lemma append_assoc (a b c : string) : (a ++ b) ++ c = a ++ (b ++ c).
Proof. induction a as [|x a IH]; simpl; [reflexivity | now rewrite IH]. Qed.

Lemma prefix_cons (a b : ascii) (p s : string) :
  prefix (String a p) (String b s) = Ascii.eqb a b && prefix p s.
Proof.
  cbn [prefix]. destruct (ascii_dec a b) as [->|N].
  - now rewrite Ascii.eqb_refl.
  - apply Ascii.eqb_neq in N. now rewrite N.
Qed.

Lemma mem_char_app (c : ascii) (a b : string) :
  mem_char c (a ++ b) = mem_char c a || mem_char c b.
Proof.
  induction a as [|x a IH]; simpl; [reflexivity|].
  now rewrite IH, orb_assoc.
Qed.

Lemma no_newline_app (a b : string) :
  no_newline (a ++ b) = no_newline a && no_newline b.
Proof. unfold no_newline. now rewrite mem_char_app, negb_orb. Qed.

Lemma no_newline_cons (c : ascii) (s : string) :
  no_newline (String c s) = negb (Ascii.eqb c newline) && no_newline s.
Proof. unfold no_newline; simpl. now rewrite negb_orb. Qed.

Lemma last_char_app_nl (s : string) : last_char (s ++ nl) = Some newline.
Proof.
  induction s as [|c s IH]; [reflexivity|].
  simpl. rewrite IH. destruct (s ++ nl) eqn:E; [|reflexivity].
  destruct s; discriminate.
Qed.

Lemma terminated_app_nl (s : string) : terminated (s ++ nl) = true.
Proof. unfold terminated. rewrite last_char_app_nl. apply Ascii.eqb_refl. Qed.

Lemma unterminated_last (lines : list string) :
  unterminated lines = negb (terminated (last lines EmptyString)).
Proof.
  unfold unterminated, terminated.
  destruct (last_char (last lines EmptyString)); reflexivity.
Qed.

(** ** The matcher *)

Section Matcher.

Variable py : python.

Lemma star_now ok k b s : k b s = true -> star ok k b s = true.
Proof. intros H. destruct s; simpl; rewrite H; reflexivity. Qed.

Lemma star_more ok k b c s :
  ok c = true -> star ok k false s = true -> star ok k b (String c s) = true.
Proof. intros Hc Hs. simpl. rewrite Hc, Hs. apply orb_true_r. Qed.

(** A continuation reached through [star] is reached on a suffix. *)
Lemma star_suffix ok k s :
  forall b, star ok k b s = true ->
  exists b' s1 s2, s = s1 ++ s2 /\ all_chars ok s1 = true /\ k b' s2 = true.
Proof.
  induction s as [|c s IH]; intros b H; simpl in H.
  - rewrite orb_false_r in H. exists b, EmptyString, EmptyString. auto.
  - apply orb_true_iff in H as [H|H].
    + exists b, EmptyString, (String c s). auto.
    + apply andb_true_iff in H as [Hc H].
      destruct (IH _ H) as (b' & s1 & s2 & -> & Hall & Hk).
      exists b', (String c s1), s2. simpl. rewrite Hc. auto.
Qed.

(** Whatever matches [p ++ q] matches [q] on a suffix. *)
Lemma go_app_suffix p q :
  forall b s, go py (p ++ q) b s = true ->
  exists b' s1 s2, s = s1 ++ s2 /\ go py q b' s2 = true.
Proof.
  induction p as [|i p IH]; intros b s H.
  - exists b, EmptyString, s. auto.
  - destruct i; simpl in H.
    + apply andb_true_iff in H as [_ H]. eauto.
    + apply andb_true_iff in H as [_ H]. eauto.
    + destruct s as [|c s]; [discriminate|].
      apply andb_true_iff in H as [_ H].
      destruct (IH _ _ H) as (b' & s1 & s2 & -> & Hq).
      exists b', (String c s1), s2. auto.
    + apply orb_true_iff in H as [H|H]; [eauto|].
      destruct s as [|c s]; [discriminate|].
      apply andb_true_iff in H as [_ H].
      destruct (IH _ _ H) as (b' & s1 & s2 & -> & Hq).
      exists b', (String c s1), s2. auto.
    + apply star_suffix in H as (b1 & t1 & t2 & -> & _ & H).
      destruct (IH _ _ H) as (b' & s1 & s2 & -> & Hq).
      exists b', (t1 ++ s1), s2. now rewrite append_assoc.
    + destruct s as [|c s]; [discriminate|].
      apply andb_true_iff in H as [_ H].
      apply star_suffix in H as (b1 & t1 & t2 & -> & _ & H).
      destruct (IH _ _ H) as (b' & s1 & s2 & -> & Hq).
      exists b', (String c (t1 ++ s1)), s2. simpl. now rewrite append_assoc.
Qed.

(** The escaped name matches the name itself. *)
Lemma go_lits n q s :
  (forall b, go py q b s = true) ->
  forall b, go py (lits n ++ q) b (n ++ s) = true.
Proof.
  intros Hq. induction n as [|c n IH]; intros b; simpl; [apply Hq|].
  rewrite Ascii.eqb_refl. apply IH.
Qed.

Lemma go_star a p b s :
  go py (Star a :: p) b s = star (accepts py a) (go py p) b s.
Proof. reflexivity. Qed.

Lemma go_plus a p b c s :
  go py (Plus a :: p) b (String c s)
  = accepts py a c && star (accepts py a) (go py p) false s.
Proof. reflexivity. Qed.

Lemma go_dots_eol e :
  no_newline e = true -> forall b, go py [Star Dot; Eol] b (e ++ nl) = true.
Proof.
  induction e as [|c e IH]; intros He b.
  - reflexivity.
  - rewrite no_newline_cons in He. apply andb_true_iff in He as [Hc He].
    rewrite go_star. apply star_more; [exact Hc|].
    rewrite <- go_star. apply (IH He false).
Qed.

Lemma go_assign_tail e :
  no_newline e = true ->
  forall b, go py [One (Lit "="); Star Dot; Eol] b ("=" ++ e ++ nl) = true.
Proof. intros He b. apply (go_dots_eol e He false). Qed.

End Matcher.

(** ** The classifier *)

Section Classifier.

Variable py : python.

Lemma star_mono ok (k k' : bool -> string -> bool) s :
  (forall b t, k b t = true -> k' b t = true) ->
  forall b, star ok k b s = true -> star ok k' b s = true.
Proof.
  intros Hk. induction s as [|c s IH]; intros b H; simpl in *.
  - rewrite orb_false_r in *. auto.
  - apply orb_true_iff in H as [H|H].
    + rewrite (Hk _ _ H). reflexivity.
    + apply andb_true_iff in H as [Hc H].
      rewrite Hc, (IH _ H). apply orb_true_r.
Qed.

(** Skipping the optional comment marker: what matches after the
    leading blanks also matches after [#?\s*]. *)
Lemma go_skip_comment r b s :
  go py ([Bol; Star Space] ++ r) b s = true ->
  go py ([Bol; Star Space; Opt (Lit "#"); Star Space] ++ r) b s = true.
Proof.
  cbn [app go]. intros H. apply andb_true_iff in H as [Hb H].
  subst b. cbn [andb].
  revert H. apply star_mono. intros b' t H.
  cbn [go]. rewrite star_now; [reflexivity | exact H].
Qed.

(** An active declaration is a declaration. *)
Lemma active_is_declaration name line :
  match_active_var py name line = true -> match_var py name line = true.
Proof.
  unfold match_active_var, match_var, rmatch. intros H.
  apply orb_true_iff in H as [H|H]; apply orb_true_iff; [left|right];
    apply go_skip_comment; exact H.
Qed.

Lemma active_assignment name e :
  no_newline e = true ->
  match_active_var py name (name ++ "=" ++ e ++ nl) = true.
Proof.
  intros He. unfold match_active_var, rmatch.
  apply orb_true_iff. left.
  cbn [app go andb]. apply star_now.
  apply go_lits. apply go_assign_tail, He.
Qed.

Lemma space_blank : re_space py " " = true.
Proof. destruct py; reflexivity. Qed.

Lemma active_export_assignment name e :
  no_newline e = true ->
  match_active_var py name ("export " ++ name ++ "=" ++ e ++ nl) = true.
Proof.
  intros He. unfold match_active_var, rmatch.
  apply orb_true_iff. right.
  cbn [app go andb]. apply star_now.
  change ("export " ++ name ++ "=" ++ e ++ nl)
    with ("export" ++ String " " (name ++ "=" ++ e ++ nl)).
  apply (go_lits py "export"). intros b.
  cbn [go accepts]. rewrite space_blank. cbn [andb]. apply star_now.
  apply go_lits. apply go_assign_tail, He.
Qed.

Lemma exported_export_assignment name e :
  no_newline name = true -> no_newline e = true ->
  is_exported py ("export " ++ name ++ "=" ++ e ++ nl) = true.
Proof.
  intros Hn He. unfold is_exported, rmatch.
  cbn [app go andb]. apply star_now.
  change ("export " ++ name ++ "=" ++ e ++ nl)
    with ("export" ++ String " " (name ++ "=" ++ e ++ nl)).
  apply (go_lits py "export"). intros b.
  rewrite go_star. apply star_now.
  rewrite go_plus. change (accepts py Dot " ") with true. cbn [andb].
  rewrite <- go_star.
  replace (name ++ "=" ++ e ++ nl) with ((name ++ "=" ++ e) ++ nl)
    by now rewrite !append_assoc.
  apply go_dots_eol.
  rewrite !no_newline_app, Hn, He. reflexivity.
Qed.

Lemma go_lits_prefix n q :
  forall b s, go py (lits n ++ q) b s = true -> prefix n s = true.
Proof.
  induction n as [|c n IH]; intros b s H; [now destruct s|].
  simpl in H. destruct s as [|d s]; [discriminate|].
  apply andb_true_iff in H as [Hc H]. apply Ascii.eqb_eq in Hc. subst d.
  rewrite prefix_cons, Ascii.eqb_refl. eauto.
Qed.

Lemma space_not_e : re_space py "e" = false.
Proof. destruct py; reflexivity. Qed.

(** [is_exported] holds only when [export] follows the leading blanks. *)
Lemma exported_prefix line :
  is_exported py line = true -> prefix "export" (lstrip py line) = true.
Proof.
  unfold is_exported, rmatch. cbn [app go andb].
  change (accepts py Space) with (re_space py).
  assert (G : forall s b, star (re_space py) (go py (lits "export" ++
                [Star Space; Plus Dot; Eol])) b s = true ->
              prefix "export" (lstrip py s) = true).
  { induction s as [|c s IH]; intros b H.
    - simpl in H. discriminate.
    - cbn [star] in H. apply orb_true_iff in H as [H|H].
      + pose proof (go_lits_prefix "export" _ _ _ H) as P.
        cbn [lstrip]. destruct (re_space py c) eqn:Hc; [|exact P].
        rewrite prefix_cons in P. apply andb_true_iff in P as [P _].
        apply Ascii.eqb_eq in P. subst c.
        rewrite space_not_e in Hc. discriminate.
      + apply andb_true_iff in H as [Hc H].
        cbn [lstrip]. rewrite Hc. eauto. }
  apply G.
Qed.

Lemma commented_not_exported line :
  commented py line = true -> is_exported py line = false.
Proof.
  unfold commented. intros Hc.
  destruct (is_exported py line) eqn:E; [|reflexivity].
  apply exported_prefix in E.
  destruct (lstrip py line) as [|c s]; [discriminate|].
  rewrite prefix_cons in Hc, E.
  apply andb_true_iff in Hc as [Hc _]. apply andb_true_iff in E as [E _].
  apply Ascii.eqb_eq in Hc. subst c. discriminate.
Qed.

Lemma prefix_app_sep p x :
  mem_char x p = false ->
  forall a r, prefix p (a ++ String x r) = true -> prefix p a = true.
Proof.
  induction p as [|y p IH]; intros Hx a r H; [now destruct a|].
  simpl in Hx. apply orb_false_iff in Hx as [Hy Hx].
  destruct a as [|z a].
  - cbn [append] in H. rewrite prefix_cons in H.
    apply andb_true_iff in H as [H _]. congruence.
  - cbn [append] in H. rewrite prefix_cons in H |- *.
    apply andb_true_iff in H as [-> H]. eauto.
Qed.

Lemma space_not_eq : re_space py "=" = false.
Proof. destruct py; reflexivity. Qed.

Lemma lstrip_assignment_prefix name r :
  prefix "export" (lstrip py (name ++ String "=" r)) = true ->
  prefix "export" (lstrip py name) = true.
Proof.
  induction name as [|c n IH]; intros H.
  - cbn [append lstrip] in H. rewrite space_not_eq in H. discriminate.
  - cbn [append lstrip] in H |- *. destruct (re_space py c); [auto|].
    change (String c (n ++ String "=" r)) with (String c n ++ String "=" r) in H.
    revert H. apply prefix_app_sep. reflexivity.
Qed.

(** A name that does not start (after blanks) with [export] gives an
    assignment line that [is_exported] rejects. *)
Lemma plain_assignment_not_exported name e :
  prefix "export" (lstrip py name) = false ->
  is_exported py (name ++ "=" ++ e ++ nl) = false.
Proof.
  intros Hn. destruct (is_exported py _) eqn:E; [|reflexivity].
  apply exported_prefix in E.
  apply lstrip_assignment_prefix in E. congruence.
Qed.

(** *** What [is_exported] accepts *)

Lemma star_all ok k s1 s2 b :
  all_chars ok s1 = true -> (forall b', k b' s2 = true) ->
  star ok k b (s1 ++ s2) = true.
Proof.
  intros H1 Hk. revert b. induction s1 as [|c s1 IH]; intros b.
  - apply star_now, Hk.
  - cbn [all_chars] in H1. apply andb_true_iff in H1 as [Hc H1].
    cbn [append]. apply star_more; auto.
Qed.

Lemma go_lits_inv n q :
  forall b s, go py (lits n ++ q) b s = true ->
  exists b' s', s = n ++ s' /\ go py q b' s' = true.
Proof.
  induction n as [|c n IH]; intros b s H.
  - exists b, s. auto.
  - simpl in H. destruct s as [|d s]; [discriminate|].
    apply andb_true_iff in H as [Hc H]. apply Ascii.eqb_eq in Hc. subst d.
    destruct (IH _ _ H) as (b' & s' & -> & Hq). exists b', s'. auto.
Qed.

Lemma all_dots_no_newline s : all_chars (accepts py Dot) s = no_newline s.
Proof.
  induction s as [|c s IH]; [reflexivity|].
  cbn [all_chars accepts]. now rewrite no_newline_cons, IH.
Qed.

Lemma at_end_cases t : at_end t = true <-> t = EmptyString \/ t = nl.
Proof.
  split.
  - destruct t as [|c [|d t]]; cbn; auto; [|discriminate].
    intros H. apply Ascii.eqb_eq in H. subst c. now right.
  - now intros [->| ->].
Qed.

(** The pattern of [is_exported], read off as a shape of the line:
    blanks, [export], blanks or none, one or more characters of the
    same line, and then the end or a final newline. *)
Lemma is_exported_iff line :
  is_exported py line = true <->
  exists ws sp body tail,
    line = ws ++ "export" ++ sp ++ body ++ tail
    /\ all_chars (re_space py) ws = true
    /\ all_chars (re_space py) sp = true
    /\ body <> EmptyString /\ no_newline body = true
    /\ (tail = EmptyString \/ tail = nl).
Proof.
  unfold is_exported, rmatch. cbn [app go andb].
  change (accepts py Space) with (re_space py). split.
  - intros H.
    apply star_suffix in H as (b1 & ws & s2 & -> & Hws & H).
    apply go_lits_inv in H as (b2 & s3 & -> & H).
    rewrite go_star in H.
    apply star_suffix in H as (b3 & sp & s4 & -> & Hsp & H).
    destruct s4 as [|c s5]; [discriminate|].
    rewrite go_plus in H. apply andb_true_iff in H as [Hc H].
    apply star_suffix in H as (b4 & body & tail & -> & Hbody & H).
    cbn [go] in H. rewrite andb_true_r in H. apply at_end_cases in H.
    exists ws, sp, (String c body), tail. repeat split; auto.
    + discriminate.
    + rewrite <- all_dots_no_newline. cbn [all_chars]. now rewrite Hc, Hbody.
  - intros (ws & sp & body & tail & -> & Hws & Hsp & Hne & Hbody & Htail).
    apply star_all; [exact Hws|]. intros b1.
    apply (go_lits py "export"). intros b2.
    rewrite go_star. apply star_all; [exact Hsp|]. intros b3.
    destruct body as [|c body]; [now elim Hne|].
    rewrite <- all_dots_no_newline in Hbody. cbn [all_chars] in Hbody.
    apply andb_true_iff in Hbody as [Hc Hbody].
    cbn [append]. rewrite go_plus, Hc. cbn [andb].
    apply star_all; [exact Hbody|]. intros b4.
    cbn [go]. rewrite andb_true_r. now apply at_end_cases.
Qed.

(** A declaration needs an equals sign. *)
Lemma declaration_has_eq name line :
  match_var py name line = true -> mem_char "=" line = true.
Proof.
  unfold match_var, rmatch. intros H.
  assert (G : forall p, go py (p ++ [One (Lit "="); Star Dot; Eol]) true line
                        = true -> mem_char "=" line = true).
  { intros p Hp. apply go_app_suffix in Hp as (b' & s1 & s2 & -> & Hq).
    rewrite mem_char_app. destruct s2 as [|c s2]; [discriminate|].
    simpl in Hq. apply andb_true_iff in Hq as [Hc _].
    simpl. rewrite Hc. apply orb_true_r. }
  apply orb_true_iff in H as [H|H].
  - apply (G ([Bol; Star Space; Opt (Lit "#"); Star Space] ++ escape name)%list).
    now rewrite <- app_assoc.
  - apply (G ([Bol; Star Space; Opt (Lit "#"); Star Space] ++ lits "export"
                ++ [Plus Space] ++ escape name)%list).
    now rewrite <- !app_assoc.
Qed.

Lemma guard_line_no_declaration name : match_var py name nl = false.
Proof.
  destruct (match_var py name nl) eqn:E; [|reflexivity].
  apply declaration_has_eq in E. discriminate.
Qed.

End Classifier.


(** ** The rewrite loop *)

Section Rewrite.

Variable py : python.
Variables var val : string.

Lemma guard_empty_cons (pre : list string) line post :
  guard_empty (pre ++ line :: post) = (pre ++ line :: post)%list.
Proof. destruct pre; reflexivity. Qed.

Lemma prune_filter lines :
  prune py var lines
  = filter (fun l => negb (match_active_var py var l)) lines.
Proof.
  induction lines as [|l ls IH]; simpl; [reflexivity|].
  destruct (match_active_var py var l); simpl; now rewrite IH.
Qed.

(** Lines that are no declaration are stepped over. *)
Lemma update_skip lv st c (pre rest : list string) :
  is_absent st = false -> Forall (undeclared py var) pre ->
  update py var lv st c (pre ++ rest)
  = let r := update py var lv st c rest in
    Scan (pre ++ s_lines r) (s_changed r) (s_matched r) (s_msg r).
Proof.
  intros Hst Hpre. induction Hpre as [|l pre Hl _ IH].
  - cbn [app]. now destruct (update py var lv st c rest).
  - cbn [app update]. rewrite Hst, Hl, IH. reflexivity.
Qed.

Lemma update_skip_absent lv c (pre rest : list string) :
  Forall (inactive py var) pre ->
  update py var lv absent c (pre ++ rest)
  = let r := update py var lv absent c rest in
    Scan (pre ++ s_lines r) (s_changed r) (s_matched r) (s_msg r).
Proof.
  intros Hpre. induction Hpre as [|l pre Hl _ IH].
  - cbn [app]. now destruct (update py var lv absent c rest).
  - cbn [app update is_absent]. rewrite Hl, IH. reflexivity.
Qed.

(** The run of [apply] that finds a declaration. *)
Lemma apply_found st (pre : list string) line post :
  is_absent st = false -> Forall (undeclared py var) pre ->
  match_var py var line = true ->
  unterminated (pre ++ line :: post) = false ->
  apply py (pre ++ line :: post) var val st
  = let new_line :=
      marker (should_export py st line) ++ line_value py var val in
    Ok (if String.eqb line new_line
        then Outcome (pre ++ new_line :: post) false EmptyString
        else Outcome (pre ++ new_line :: prune py var post) true "var changed").
Proof.
  intros Hst Hpre Hline Hterm. unfold apply.
  rewrite guard_empty_cons, Hterm. cbv zeta.
  rewrite (update_skip _ _ _ _ _ Hst Hpre).
  cbn [update]. rewrite Hst, Hline.
  replace (if should_export py st line
           then "export " ++ line_value py var val else line_value py var val)
    with (marker (should_export py st line) ++ line_value py var val)
    by now destruct (should_export py st line).
  destruct (String.eqb line _); cbn -[append];
    unfold add_missing; cbn -[append]; rewrite Hst; reflexivity.
Qed.

(** The run of [apply] that finds none. *)
Lemma apply_not_found st (lines : list string) :
  is_absent st = false -> Forall (undeclared py var) lines ->
  unterminated (guard_empty lines) = false ->
  apply py lines var val st
  = Ok (Outcome (guard_empty lines
                   ++ [match st with
                       | local => line_value py var val
                       | _ => "export " ++ line_value py var val
                       end]) true "var added").
Proof.
  intros Hst Hl Hterm. unfold apply. rewrite Hterm. cbv zeta.
  assert (Hg : Forall (undeclared py var) (guard_empty lines)).
  { destruct lines; [|exact Hl]. constructor; [|constructor].
    apply guard_line_no_declaration. }
  pose proof (update_skip (line_value py var val) st false _ [] Hst Hg) as E.
  rewrite app_nil_r in E. rewrite E. cbn -[append].
  unfold add_missing. cbn -[append]. rewrite Hst, app_nil_r. reflexivity.
Qed.

(** [state=absent], with an active declaration and without. *)
Lemma apply_absent_found (pre : list string) line post :
  Forall (inactive py var) pre -> match_active_var py var line = true ->
  unterminated (pre ++ line :: post) = false ->
  apply py (pre ++ line :: post) var val absent
  = Ok (Outcome (pre ++ post) true "var removed").
Proof.
  intros Hpre Hline Hterm. unfold apply.
  rewrite guard_empty_cons, Hterm. cbv zeta.
  rewrite (update_skip_absent _ _ _ _ Hpre).
  cbn [update is_absent]. rewrite Hline. reflexivity.
Qed.

Lemma guard_line_inactive : inactive py var nl.
Proof.
  unfold inactive. destruct (match_active_var py var nl) eqn:E; [|reflexivity].
  apply active_is_declaration in E.
  now rewrite guard_line_no_declaration in E.
Qed.

Lemma apply_absent_none (lines : list string) :
  Forall (inactive py var) lines ->
  unterminated (guard_empty lines) = false ->
  apply py lines var val absent
  = Ok (Outcome (guard_empty lines) false EmptyString).
Proof.
  intros Hl Hterm. unfold apply. rewrite Hterm. cbv zeta.
  assert (Hg : Forall (inactive py var) (guard_empty lines)).
  { destruct lines; [|exact Hl]. constructor; [|constructor].
    apply guard_line_inactive. }
  pose proof (update_skip_absent (line_value py var val) false _ [] Hg) as E.
  rewrite app_nil_r in E. rewrite E. cbn. now rewrite app_nil_r.
Qed.

End Rewrite.

(** ** Quoting *)

Lemma prefix_empty (s : string) : prefix EmptyString s = true.
Proof. now destruct s. Qed.

(** [str.replace] of a single quote works character by character. *)
Lemma replace_squote (rep s : string) : replace "'" rep s = quote_each rep s.
Proof.
  unfold replace. induction s as [|c s IH]; [reflexivity|].
  cbn [replace_from quote_each]. rewrite prefix_cons, prefix_empty, andb_true_r.
  rewrite Ascii.eqb_sym. destruct (Ascii.eqb c "'").
  - cbn [String.length Nat.sub]. now rewrite IH.
  - now rewrite IH.
Qed.

Lemma quote_each_no_newline (rep s : string) :
  no_newline rep = true -> no_newline s = true ->
  no_newline (quote_each rep s) = true.
Proof.
  intros Hr. induction s as [|c s IH]; intros Hs; [reflexivity|].
  rewrite no_newline_cons in Hs. apply andb_true_iff in Hs as [Hc Hs].
  cbn [quote_each]. rewrite no_newline_app, (IH Hs), andb_true_r.
  destruct (Ascii.eqb c "'"); [exact Hr|].
  now rewrite no_newline_cons, Hc.
Qed.

Lemma shell_escape_no_newline (py : python) (text : string) :
  no_newline text = true -> no_newline (shell_escape py text) = true.
Proof.
  intros H. destruct py; unfold shell_escape, shlex_quote.
  - rewrite replace_squote, !no_newline_app, quote_each_no_newline; auto.
  - destruct text as [|c t]; [reflexivity|].
    destruct (all_chars shlex_safe (String c t)); [exact H|].
    rewrite replace_squote, !no_newline_app, quote_each_no_newline; auto.
Qed.

(** C3 (as amended).  [shell_escape] is [shlex.quote] where the
    interpreter has it: on Python 3 an empty value becomes [''], a value
    made only of the characters [A-Za-z0-9_@%+=:,./-] is returned as it
    is, and any other value is wrapped in single quotes with every
    embedded single quote replaced by the five characters
    quote, double quote, quote, double quote, quote.  Only where
    [shlex.quote] is missing (Python 2) is every value wrapped in single
    quotes with each embedded single quote replaced by the four
    characters quote, backslash, quote, quote; there [it's] becomes
    ['it'\''s']. *)
Theorem shell_escape_quoting (text : string) :
  shell_escape Python2 text = "'" ++ quote_each "'\''" text ++ "'"
  /\ shell_escape Python3 text
     = (if String.eqb text EmptyString then "''"
        else if all_chars shlex_safe text then text
        else "'" ++ quote_each (squote ++ dquote ++ squote ++ dquote ++ squote)
                      text ++ "'")
  /\ shell_escape Python2 "it's" = "'it'\''s'".
Proof.
  repeat split.
  - unfold shell_escape, shlex_quote. now rewrite replace_squote.
  - unfold shell_escape, shlex_quote. destruct text as [|c t]; [reflexivity|].
    cbn [String.eqb]. rewrite replace_squote. reflexivity.
Qed.

(** C3, the claim as stated: on Python 3 a value without special
    characters is not quoted, and an embedded quote is not replaced by
    the four-character sequence. *)
Lemma shell_escape_not_always_quoted :
  shell_escape Python3 "bar" <> "'" ++ quote_each "'\''" "bar" ++ "'"
  /\ shell_escape Python3 "it's" <> "'it'\''s'".
Proof. split; vm_compute; discriminate. Qed.

(** ** Updating a declaration *)

Section Positions.

Context {A : Type}.

Lemma firstn_prefix (pre rest : list A) :
  firstn (List.length pre) (pre ++ rest) = pre.
Proof. induction pre as [|x pre IH]; simpl; [now destruct rest | now rewrite IH]. Qed.

Lemma nth_error_middle (pre : list A) x rest :
  nth_error (pre ++ x :: rest) (List.length pre) = Some x.
Proof. induction pre as [|y pre IH]; simpl; auto. Qed.

Lemma skipn_suffix (pre : list A) x rest :
  skipn (S (List.length pre)) (pre ++ x :: rest) = rest.
Proof. induction pre as [|y pre IH]; simpl; auto. Qed.

End Positions.

Lemma not_absent (st : state) : st <> absent -> is_absent st = false.
Proof. destruct st; intros H; [now elim H | reflexivity ..]. Qed.

Lemma marker_should_export py st line lv :
  (st = exported \/ (st = present /\ is_exported py line = true) ->
   marker (should_export py st line) ++ lv = "export " ++ lv)
  /\ (~ (st = exported \/ (st = present /\ is_exported py line = true)) ->
      marker (should_export py st line) ++ lv = lv).
Proof.
  split.
  - intros [->|[-> E]]; unfold should_export; [|rewrite E]; reflexivity.
  - intros N. destruct st; unfold should_export; try reflexivity.
    + destruct (is_exported py line) eqn:E; [|reflexivity].
      elim N. auto.
    + elim N. auto.
Qed.

(** C5.  For the states present, local and exported, on a file that
    [apply] accepts: the first line that is a declaration of the
    variable is replaced, in place, by [<var>=<shell_escape(val)>\n],
    and this line carries the prefix [export ] exactly when the state is
    exported, or the state is present and [is_exported] held of the
    line that was matched.  Under local it never carries the prefix. *)
Theorem update_export_marker py (pre : list string) line post var val st :
  st <> absent ->
  Forall (undeclared py var) pre ->
  match_var py var line = true ->
  unterminated (pre ++ line :: post) = false ->
  exists o,
    apply py (pre ++ line :: post) var val st = Ok o
    /\ firstn (List.length pre) (env_lines o) = pre
    /\ (st = exported \/ (st = present /\ is_exported py line = true) ->
        nth_error (env_lines o) (List.length pre)
        = Some ("export " ++ var ++ "=" ++ shell_escape py val ++ nl))
    /\ (~ (st = exported \/ (st = present /\ is_exported py line = true)) ->
        nth_error (env_lines o) (List.length pre)
        = Some (var ++ "=" ++ shell_escape py val ++ nl)).
Proof.
  intros Hst Hpre Hline Hterm.
  rewrite (apply_found py var val st pre line post
             (not_absent st Hst) Hpre Hline Hterm).
  cbv zeta.
  destruct (marker_should_export py st line (line_value py var val)) as [Y N].
  unfold line_value in *.
  destruct (String.eqb line _); eexists; (split; [reflexivity|]);
    cbn [env_lines]; rewrite firstn_prefix, nth_error_middle;
    (split; [reflexivity|]); split; intros H;
    [rewrite (Y H) | rewrite (N H) | rewrite (Y H) | rewrite (N H)];
    reflexivity.
Qed.

Lemma update_export_marker_witness :
  exists o,
    apply Python2 ["# a comment" ++ nl; "export FOO=old" ++ nl; "BAR=1" ++ nl]
          "FOO" "new" present = Ok o
    /\ nth_error (env_lines o) 1 = Some ("export FOO='new'" ++ nl).
Proof.
  destruct (update_export_marker Python2 ["# a comment" ++ nl]
              ("export FOO=old" ++ nl) ["BAR=1" ++ nl] "FOO" "new" present)
    as (o & Ho & _ & Hy & _).
  - discriminate.
  - repeat constructor.
  - reflexivity.
  - reflexivity.
  - exists o. split; [exact Ho|]. apply Hy. right. split; reflexivity.
Defined.

(** C7.  For the states present, local and exported, on a file that
    [apply] accepts, with [new_line] the line that the code builds for
    the first declaration ([<var>=<shell_escape(val)>\n], with the
    export marker when [should_export] holds): when [new_line] differs
    from the line that was there, the result is the lines before it,
    [new_line], and the later lines without those that are active
    declarations of the variable, in order, with [changed] set and the
    message [var changed]; when it is the same line, nothing after it
    is deleted and the file is returned as it was, with [changed]
    false. *)
Theorem update_prunes_duplicates py (pre : list string) line post var val st :
  st <> absent ->
  Forall (undeclared py var) pre ->
  match_var py var line = true ->
  unterminated (pre ++ line :: post) = false ->
  (line <> marker (should_export py st line)
             ++ var ++ "=" ++ shell_escape py val ++ nl ->
   apply py (pre ++ line :: post) var val st
   = Ok (Outcome
           (pre ++ (marker (should_export py st line)
                      ++ var ++ "=" ++ shell_escape py val ++ nl)%string
                :: filter (fun l => negb (match_active_var py var l)) post)
           true "var changed"))
  /\ (line = marker (should_export py st line)
               ++ var ++ "=" ++ shell_escape py val ++ nl ->
      apply py (pre ++ line :: post) var val st
      = Ok (Outcome (pre ++ line :: post) false EmptyString)).
Proof.
  intros Hst Hpre Hline Hterm.
  rewrite (apply_found py var val st pre line post
             (not_absent st Hst) Hpre Hline Hterm).
  cbv zeta. unfold line_value.
  set (new_line := marker (should_export py st line)
                   ++ var ++ "=" ++ shell_escape py val ++ nl).
  split; intros E.
  - apply String.eqb_neq in E. rewrite E. now rewrite prune_filter.
  - rewrite <- E at 2. rewrite (proj2 (String.eqb_eq line new_line) E).
    reflexivity.
Qed.

Lemma update_prunes_duplicates_witness :
  apply Python2 ["FOO=old" ++ nl; "X=1" ++ nl; "FOO=dup" ++ nl]
        "FOO" "new" present
  = Ok (Outcome ["FOO='new'" ++ nl; "X=1" ++ nl] true "var changed").
Proof.
  destruct (update_prunes_duplicates Python2 [] ("FOO=old" ++ nl)
              ["X=1" ++ nl; "FOO=dup" ++ nl] "FOO" "new" present)
    as [H _].
  - discriminate.
  - constructor.
  - reflexivity.
  - reflexivity.
  - apply H. discriminate.
Defined.

(** The example of the specification, under the fallback quoting. *)
Example update_prunes_spec_example :
  apply Python2 ["FOO=old" ++ nl; "FOO=dup" ++ nl] "FOO" "new" present
  = Ok (Outcome ["FOO='new'" ++ nl] true "var changed").
Proof. reflexivity. Qed.

(** C10.  Under [state=present], when the first declaration of the
    variable is a commented one (the first character after the leading
    blanks is [#]), as in [#export FOO=old] or [# export FOO=old],
    [is_exported] is false of it and the line written in its place is
    [<var>=<shell_escape(val)>\n], without the export marker. *)
Theorem commented_export_dropped py (pre : list string) line post var val :
  Forall (undeclared py var) pre ->
  match_var py var line = true ->
  commented py line = true ->
  unterminated (pre ++ line :: post) = false ->
  is_exported py line = false
  /\ exists o,
      apply py (pre ++ line :: post) var val present = Ok o
      /\ nth_error (env_lines o) (List.length pre)
         = Some (var ++ "=" ++ shell_escape py val ++ nl).
Proof.
  intros Hpre Hline Hc Hterm.
  pose proof (commented_not_exported py line Hc) as E.
  split; [exact E|].
  rewrite (apply_found py var val present pre line post
             eq_refl Hpre Hline Hterm).
  cbv zeta. unfold should_export. rewrite E. cbn [marker append].
  destruct (String.eqb line _); eexists; (split; [reflexivity|]);
    cbn [env_lines]; now rewrite nth_error_middle.
Qed.

Lemma commented_export_dropped_witness :
  is_exported Python3 ("#export FOO=old" ++ nl) = false
  /\ exists o,
      apply Python3 ["#export FOO=old" ++ nl] "FOO" "new value" present = Ok o
      /\ nth_error (env_lines o) 0
         = Some ("FOO=" ++ shell_escape Python3 "new value" ++ nl).
Proof.
  apply (commented_export_dropped Python3 [] ("#export FOO=old" ++ nl) []
           "FOO" "new value").
  - constructor.
  - reflexivity.
  - reflexivity.
  - reflexivity.
Defined.

Example commented_export_with_blank (py : python) :
  apply py ["# export FOO=old" ++ nl] "FOO" "it's" present
  = Ok (Outcome ["FOO=" ++ shell_escape py "it's" ++ nl] true "var changed").
Proof. destruct py; reflexivity. Qed.

(** ** Removing a declaration *)

(** C6.  Under [state=absent], on a file that [apply] accepts: the
    first line, in document order, that is an active declaration of the
    variable is deleted, [changed] is set and the message is
    [var removed]; every other line, commented declarations and later
    active ones included, stays where it was.  With no active
    declaration the lines come back unchanged ([changed] false, empty
    message); for the empty file these are the guard line of the
    source. *)
Theorem absent_removes_first_active py (lines : list string) var val :
  unterminated (guard_empty lines) = false ->
  (forall pre line post,
      lines = (pre ++ line :: post)%list ->
      Forall (inactive py var) pre ->
      match_active_var py var line = true ->
      apply py lines var val absent
      = Ok (Outcome (pre ++ post) true "var removed"))
  /\ (Forall (inactive py var) lines ->
      apply py lines var val absent
      = Ok (Outcome (guard_empty lines) false EmptyString)).
Proof.
  intros Hterm. split.
  - intros pre line post -> Hpre Hline.
    rewrite guard_empty_cons in Hterm.
    now apply apply_absent_found.
  - intros Hl. now apply apply_absent_none.
Qed.

Lemma absent_removes_first_active_witness :
  apply Python3 ["FOO=a" ++ nl; "#FOO=c" ++ nl; "FOO=b" ++ nl] "FOO"
        EmptyString absent
  = Ok (Outcome ["#FOO=c" ++ nl; "FOO=b" ++ nl] true "var removed")
  /\ apply Python3 ["#FOO=c" ++ nl; "BAR=b" ++ nl] "FOO" EmptyString absent
     = Ok (Outcome ["#FOO=c" ++ nl; "BAR=b" ++ nl] false EmptyString).
Proof.
  split.
  - destruct (absent_removes_first_active Python3
                ["FOO=a" ++ nl; "#FOO=c" ++ nl; "FOO=b" ++ nl] "FOO"
                EmptyString eq_refl) as [H _].
    apply (H [] ("FOO=a" ++ nl) ["#FOO=c" ++ nl; "FOO=b" ++ nl]).
    + reflexivity.
    + constructor.
    + reflexivity.
  - destruct (absent_removes_first_active Python3
                ["#FOO=c" ++ nl; "BAR=b" ++ nl] "FOO"
                EmptyString eq_refl) as [_ H].
    apply H. repeat constructor.
Defined.

(** ** Adding a declaration *)

(** C8 (as amended).  For the states present, local and exported, on a
    file that [apply] accepts and that holds no declaration of the
    variable: the line [<var>=<shell_escape(val)>\n] is appended at the
    end (after the guard line when the file was empty), with the prefix
    [export ] unless the state is local; [changed] is set and the
    message is [var added].  For [FOO], [bar] and present the appended
    line is [export FOO=<shell_escape(bar)>\n]. *)
Theorem add_when_undeclared py (lines : list string) var val st :
  st <> absent ->
  Forall (undeclared py var) lines ->
  unterminated (guard_empty lines) = false ->
  apply py lines var val st
  = Ok (Outcome
          (guard_empty lines
             ++ [(match st with local => EmptyString | _ => "export " end)
                   ++ var ++ "=" ++ shell_escape py val ++ nl])
          true "var added").
Proof.
  intros Hst Hl Hterm.
  rewrite (apply_not_found py var val st lines (not_absent st Hst) Hl Hterm).
  unfold line_value. destruct st; reflexivity.
Qed.

Lemma add_when_undeclared_witness :
  apply Python2 ["A=1" ++ nl] "FOO" "bar" present
  = Ok (Outcome ["A=1" ++ nl; "export FOO='bar'" ++ nl] true "var added").
Proof.
  apply (add_when_undeclared Python2 ["A=1" ++ nl] "FOO" "bar" present).
  - discriminate.
  - repeat constructor.
  - reflexivity.
Defined.

(** C8, the claim as stated: with [shlex.quote] at hand the line
    appended for [FOO] and [bar] is not [export FOO='bar']. *)
Lemma add_example_not_quoted :
  Forall (undeclared Python3 "FOO") ["A=1" ++ nl]
  /\ apply Python3 ["A=1" ++ nl] "FOO" "bar" present
     = Ok (Outcome ["A=1" ++ nl; "export FOO=bar" ++ nl] true "var added")
  /\ apply Python3 ["A=1" ++ nl] "FOO" "bar" present
     <> Ok (Outcome ["A=1" ++ nl; "export FOO='bar'" ++ nl] true "var added").
Proof.
  split; [repeat constructor|]. split; [reflexivity|].
  vm_compute. discriminate.
Qed.

(** ** Activating a commented declaration *)

(** C9 (as amended).  For the states present, local and exported, on a
    file that [apply] accepts: a line that is a declaration of the
    variable only as a comment is a match site when it is the first
    declaration, and [<var>=<shell_escape(val)>\n] (with the export
    marker the state asks for) is written in its place.  For a value
    with no newline this line is an active declaration, [changed] is set
    and the message is [var changed].  On [#FOO=old] with [FOO], [new]
    and present the result is the single line
    [FOO=<shell_escape(new)>\n]. *)
Theorem commented_declaration_activated py (pre : list string) line post
        var val st :
  st <> absent ->
  Forall (undeclared py var) pre ->
  match_var py var line = true ->
  match_active_var py var line = false ->
  unterminated (pre ++ line :: post) = false ->
  exists o,
    apply py (pre ++ line :: post) var val st = Ok o
    /\ firstn (List.length pre) (env_lines o) = pre
    /\ nth_error (env_lines o) (List.length pre)
       = Some (marker (should_export py st line)
                 ++ var ++ "=" ++ shell_escape py val ++ nl)
    /\ (no_newline val = true ->
        match_active_var py var
          (marker (should_export py st line)
             ++ var ++ "=" ++ shell_escape py val ++ nl) = true
        /\ env_lines o
           = (pre ++ (marker (should_export py st line)
                        ++ var ++ "=" ++ shell_escape py val ++ nl)%string
                  :: filter (fun l => negb (match_active_var py var l)) post)%list
        /\ changed o = true /\ msg o = "var changed").
Proof.
  intros Hst Hpre Hline Hcomm Hterm.
  rewrite (apply_found py var val st pre line post
             (not_absent st Hst) Hpre Hline Hterm).
  cbv zeta. unfold line_value.
  set (new_line := marker _ ++ _).
  assert (Hact : no_newline val = true ->
                 match_active_var py var new_line = true).
  { intros Hv. apply (shell_escape_no_newline py) in Hv.
    subst new_line. destruct (should_export py st line); cbn [marker].
    - now apply active_export_assignment.
    - now apply active_assignment. }
  destruct (String.eqb line new_line) eqn:E.
  - apply String.eqb_eq in E.
    eexists. split; [reflexivity|]. cbn [env_lines].
    rewrite firstn_prefix, nth_error_middle. repeat split; try reflexivity;
      specialize (Hact H); congruence.
  - eexists. split; [reflexivity|]. cbn [env_lines changed msg].
    rewrite firstn_prefix, nth_error_middle, prune_filter.
    repeat split; auto.
Qed.

Lemma commented_declaration_activated_witness :
  exists o,
    apply Python2 ["#FOO=old" ++ nl] "FOO" "new" present = Ok o
    /\ firstn 0 (env_lines o) = []
    /\ nth_error (env_lines o) 0 = Some ("FOO='new'" ++ nl)
    /\ (no_newline "new" = true ->
        match_active_var Python2 "FOO" ("FOO='new'" ++ nl) = true
        /\ env_lines o = ["FOO='new'" ++ nl]
        /\ changed o = true /\ msg o = "var changed").
Proof.
  apply (commented_declaration_activated Python2 [] ("#FOO=old" ++ nl) []
           "FOO" "new" present).
  - discriminate.
  - constructor.
  - reflexivity.
  - reflexivity.
  - reflexivity.
Defined.

(** C9, the claim as stated: with [shlex.quote] at hand the example
    yields [FOO=new], not [FOO='new']. *)
Lemma commented_example_not_quoted :
  apply Python3 ["#FOO=old" ++ nl] "FOO" "new" present
  = Ok (Outcome ["FOO=new" ++ nl] true "var changed")
  /\ forall o, apply Python3 ["#FOO=old" ++ nl] "FOO" "new" present = Ok o ->
               env_lines o <> ["FOO='new'" ++ nl].
Proof.
  split; [reflexivity|]. intros o H. vm_compute in H.
  injection H as <-. vm_compute. discriminate.
Qed.

(** ** Files without a final newline *)

(** [apply] returns exactly on the files whose last line ends in a
    newline (the empty file included); on the others the normalisation
    branch is entered and raises. *)
Lemma apply_raises_iff py (lines : list string) var val st :
  (apply py lines var val st = Raise NameError
   <-> unterminated (guard_empty lines) = true)
  /\ ((exists o, apply py lines var val st = Ok o)
      <-> unterminated (guard_empty lines) = false).
Proof.
  unfold apply. destruct (unterminated (guard_empty lines)); split; split;
    try reflexivity; try discriminate; eauto.
  intros [o H]. discriminate.
Qed.

(** C2 (code defect).  On a file whose last line has no newline the
    core does not return: whatever the variable, the value and the
    state, it raises [NameError] instead of appending the newline and
    setting [changed]. *)
Theorem unterminated_file_raises py var val st :
  apply py ["FOO=bar"] var val st = Raise NameError
  /\ apply py ["A=1" ++ nl; "FOO=bar"] var val st = Raise NameError
  /\ apply py [EmptyString] var val st = Raise NameError.
Proof. repeat split. Qed.

(** ** The export test *)

(** C4 (code defect).  [is_exported] asks for no blank after [export]:
    it holds of [exportFOO=1], where the keyword is followed by no
    whitespace, although [match_var] and [match_active_var] ask for
    [export\s+].  Through [apply] an unexported variable whose name
    starts with [export] comes out exported under [state=present]. *)
Theorem is_exported_needs_no_blank py :
  is_exported py ("exportFOO=1" ++ nl) = true
  /\ match_var py "FOO" ("exportFOO=1" ++ nl) = false
  /\ apply py ["exportFOO=old" ++ nl] "exportFOO" "new" present
     = Ok (Outcome ["export exportFOO=" ++ shell_escape py "new" ++ nl]
                   true "var changed").
Proof. destruct py; repeat split. Qed.

(** With a blank after the keyword the test holds, as the sibling
    patterns have it; a bare [export] line is rejected. *)
Example is_exported_with_blank (py : python) :
  is_exported py ("export FOO=1" ++ nl) = true
  /\ is_exported py ("  export" ++ nl) = false
  /\ is_exported py ("FOO=export 1" ++ nl) = false.
Proof. destruct py; repeat split. Qed.

(** ** Running twice *)

Section Rerun.

Variable py : python.
Variables var val : string.

Lemma Forall_last {A : Type} (P : A -> Prop) (l : list A) (d : A) :
  Forall P l -> l <> [] -> P (last l d).
Proof.
  induction 1 as [|x l Hx Hl IH]; intros N; [now elim N|].
  destruct l as [|y l]; [exact Hx|].
  apply IH. discriminate.
Qed.

Lemma terminated_returns (lines : list string) :
  Forall (fun l => terminated l = true) lines -> lines <> [] ->
  unterminated lines = false.
Proof.
  intros H N. rewrite unterminated_last.
  now rewrite (Forall_last _ lines EmptyString H N).
Qed.

Lemma guard_terminated (lines : list string) :
  Forall (fun l => terminated l = true) lines ->
  unterminated (guard_empty lines) = false.
Proof.
  intros H. destruct lines as [|l ls]; [reflexivity|].
  apply terminated_returns; [exact H | discriminate].
Qed.

Lemma prune_terminated (lines : list string) :
  Forall (fun l => terminated l = true) lines ->
  Forall (fun l => terminated l = true) (prune py var lines).
Proof.
  induction 1 as [|x l Hx Hl IH]; cbn [prune]; [constructor|].
  destruct (match_active_var py var x); [exact IH | now constructor].
Qed.

(** The first line on which a test holds, if there is one. *)
Lemma first_match (f : string -> bool) (lines : list string) :
  Forall (fun l => f l = false) lines
  \/ exists pre line post,
      lines = (pre ++ line :: post)%list
      /\ Forall (fun l => f l = false) pre /\ f line = true.
Proof.
  induction lines as [|x l IH]; [left; constructor|].
  destruct (f x) eqn:E.
  - right. exists [], x, l. repeat split; [constructor | exact E].
  - destruct IH as [IH | (pre & line & post & -> & Hpre & Hline)].
    + left. now constructor.
    + right. exists (x :: pre), line, post. repeat split; auto.
Qed.

Lemma single_active (pre : list string) line post :
  match_active_var py var line = true ->
  (active_count py var (pre ++ line :: post) <= 1)%nat ->
  Forall (inactive py var) post.
Proof.
  unfold active_count. rewrite filter_app, length_app. cbn [filter].
  intros -> H. cbn [List.length] in H.
  assert (E : List.length (filter (match_active_var py var) post) = 0%nat) by lia.
  apply length_zero_iff_nil in E.
  apply Forall_forall. intros l Hl. unfold inactive.
  destruct (match_active_var py var l) eqn:A; [|reflexivity].
  assert (In l (filter (match_active_var py var) post))
    by (apply filter_In; auto).
  rewrite E in H0. contradiction.
Qed.

(** The line that a run writes is found again by the next one. *)
Lemma written_line_declared b :
  no_newline val = true ->
  match_var py var (marker b ++ line_value py var val) = true.
Proof.
  intros Hv. apply (shell_escape_no_newline py) in Hv.
  apply active_is_declaration. unfold line_value. destruct b; cbn [marker].
  - now apply active_export_assignment.
  - now apply active_assignment.
Qed.

Lemma written_line_terminated b :
  terminated (marker b ++ line_value py var val) = true.
Proof.
  unfold line_value.
  replace (marker b ++ var ++ "=" ++ shell_escape py val ++ nl)
    with ((marker b ++ var ++ "=" ++ shell_escape py val) ++ nl)
    by now rewrite !append_assoc.
  apply terminated_app_nl.
Qed.

(** ... and asks for the same export marker again. *)
Lemma written_line_marker st line :
  st <> absent -> rerun_stable py [] var val st ->
  should_export py st
    (marker (should_export py st line) ++ line_value py var val)
  = should_export py st line.
Proof.
  intros Hst Hs. destruct st; try reflexivity.
  destruct Hs as (Hv & Hn & Hx). cbn [should_export].
  apply (shell_escape_no_newline py) in Hv. unfold line_value.
  destruct (is_exported py line); cbn [marker].
  - now apply exported_export_assignment.
  - now apply plain_assignment_not_exported.
Qed.

Lemma stable_value st (lines : list string) :
  st <> absent -> rerun_stable py lines var val st ->
  no_newline val = true /\ rerun_stable py [] var val st.
Proof.
  intros Hst Hs. destruct st; [now elim Hst | | |]; cbn in *; tauto.
Qed.

Lemma rerun_update st (lines : list string) :
  st <> absent ->
  Forall (fun l => terminated l = true) lines ->
  rerun_stable py lines var val st ->
  exists o,
    apply py lines var val st = Ok o
    /\ apply py (env_lines o) var val st
       = Ok (Outcome (env_lines o) false EmptyString).
Proof.
  intros Hst Hterm Hs.
  destruct (stable_value st lines Hst Hs) as [Hv Hs0].
  pose proof (not_absent st Hst) as Ha.
  destruct (first_match (match_var py var) lines)
    as [Hnone | (pre & line & post & -> & Hpre & Hline)].
  - (* no declaration: the line is added, then found *)
    rewrite (apply_not_found py var val st lines Ha Hnone
               (guard_terminated lines Hterm)).
    eexists. split; [reflexivity|]. cbn [env_lines].
    set (added := match st with
                  | local => line_value py var val
                  | _ => "export " ++ line_value py var val
                  end).
    assert (Hadd : added = marker (negb (match st with local => true
                                                  | _ => false end))
                           ++ line_value py var val)
      by (subst added; now destruct st).
    assert (Hg : Forall (undeclared py var) (guard_empty lines)).
    { destruct lines; [|exact Hnone]. constructor; [|constructor].
      apply guard_line_no_declaration. }
    assert (Hdecl : match_var py var added = true)
      by (rewrite Hadd; now apply written_line_declared).
    assert (Hlast : unterminated (guard_empty lines ++ [added]) = false).
    { rewrite unterminated_last, last_last, Hadd.
      now rewrite written_line_terminated. }
    rewrite (apply_found py var val st (guard_empty lines) added []
               Ha Hg Hdecl Hlast).
    cbv zeta.
    assert (Hsame : marker (should_export py st added)
                    ++ line_value py var val = added).
    { destruct st; [now elim Hst | | reflexivity | reflexivity].
      subst added. cbn [should_export].
      apply (shell_escape_no_newline py) in Hv.
      destruct Hs as (_ & Hn & _). unfold line_value at 1.
      now rewrite exported_export_assignment. }
    rewrite Hsame, String.eqb_refl. reflexivity.
  - (* a declaration: rewritten, then found unchanged *)
    assert (Hret : unterminated (pre ++ line :: post) = false)
      by (apply terminated_returns; [exact Hterm | now destruct pre]).
    rewrite (apply_found py var val st pre line post Ha Hpre Hline Hret).
    cbv zeta.
    set (new_line := marker (should_export py st line)
                     ++ line_value py var val).
    assert (Hdecl : match_var py var new_line = true)
      by now apply written_line_declared.
    assert (Hsame : marker (should_export py st new_line)
                    ++ line_value py var val = new_line)
      by (subst new_line; now rewrite written_line_marker).
    assert (Hnl : terminated new_line = true)
      by apply written_line_terminated.
    apply Forall_app in Hterm as [Tpre Tpost].
    apply Forall_cons_iff in Tpost as [_ Tpost].
    destruct (String.eqb line new_line) eqn:E.
    + apply String.eqb_eq in E. eexists. split; [reflexivity|].
      cbn [env_lines].
      assert (Hret' : unterminated (pre ++ new_line :: post) = false).
      { apply terminated_returns; [|now destruct pre].
        apply Forall_app. split; [exact Tpre | now constructor]. }
      rewrite (apply_found py var val st pre new_line post
                 Ha Hpre Hdecl Hret').
      cbv zeta. rewrite Hsame, String.eqb_refl. reflexivity.
    + eexists. split; [reflexivity|]. cbn [env_lines].
      assert (Hret' : unterminated (pre ++ new_line :: prune py var post)
                      = false).
      { apply terminated_returns; [|now destruct pre].
        apply Forall_app. split; [exact Tpre|].
        constructor; [exact Hnl | now apply prune_terminated]. }
      rewrite (apply_found py var val st pre new_line (prune py var post)
                 Ha Hpre Hdecl Hret').
      cbv zeta. rewrite Hsame, String.eqb_refl. reflexivity.
Qed.

Lemma rerun_absent (lines : list string) :
  Forall (fun l => terminated l = true) lines ->
  rerun_stable py lines var val absent ->
  exists o,
    apply py lines var val absent = Ok o
    /\ apply py (env_lines o) var val absent
       = Ok (Outcome (env_lines o) false EmptyString).
Proof.
  intros Hterm [Hone Hsingle].
  destruct (first_match (match_active_var py var) lines)
    as [Hnone | (pre & line & post & -> & Hpre & Hline)].
  - rewrite (apply_absent_none py var val lines Hnone
               (guard_terminated lines Hterm)).
    eexists. split; [reflexivity|]. cbn [env_lines].
    assert (Hg : Forall (inactive py var) (guard_empty lines)).
    { destruct lines; [|exact Hnone]. constructor; [|constructor].
      apply guard_line_inactive. }
    rewrite (apply_absent_none py var val (guard_empty lines) Hg).
    + now destruct lines.
    + destruct lines; [reflexivity|]. now apply guard_terminated.
  - assert (Hret : unterminated (pre ++ line :: post) = false)
      by (apply terminated_returns; [exact Hterm | now destruct pre]).
    rewrite (apply_absent_found py var val pre line post Hpre Hline Hret).
    eexists. split; [reflexivity|]. cbn [env_lines].
    pose proof (single_active pre line post Hline Hone) as Hpost.
    apply Forall_app in Hterm as [Tpre Tpost].
    apply Forall_cons_iff in Tpost as [_ Tpost].
    assert (Hrest : (pre ++ post)%list <> []).
    { intros E. apply app_eq_nil in E as [-> ->].
      specialize (Hsingle line eq_refl). unfold inactive in Hsingle.
      congruence. }
    assert (Hg : guard_empty (pre ++ post) = (pre ++ post)%list)
      by (destruct (pre ++ post)%list; [now elim Hrest | reflexivity]).
    rewrite (apply_absent_none py var val (pre ++ post)).
    + now rewrite Hg.
    + apply Forall_app. split; assumption.
    + rewrite Hg. apply terminated_returns; [|exact Hrest].
      apply Forall_app. split; assumption.
Qed.

End Rerun.

(** C1 (as amended).  On a file whose lines all end in a newline, a
    second run on the output of the first, with the same variable, value
    and state, returns the same lines with [changed] false, in these
    cases: under local and exported when the value holds no newline;
    under present when moreover the name holds no newline and does not
    start, after leading blanks, with [export]; under absent when the
    file holds at most one active declaration of the variable and this
    declaration is not its only line. *)
Theorem rerun_changes_nothing py (lines : list string) var val st :
  Forall (fun l => terminated l = true) lines ->
  rerun_stable py lines var val st ->
  exists o,
    apply py lines var val st = Ok o
    /\ apply py (env_lines o) var val st
       = Ok (Outcome (env_lines o) false EmptyString).
Proof.
  intros Hterm Hs. destruct st.
  - now apply rerun_absent.
  - apply rerun_update; [discriminate | assumption ..].
  - apply rerun_update; [discriminate | assumption ..].
  - apply rerun_update; [discriminate | assumption ..].
Qed.

Lemma rerun_changes_nothing_witness :
  exists o,
    apply Python3 ["# env" ++ nl; "FOO=old" ++ nl; "FOO=dup" ++ nl]
          "FOO" "new value" present = Ok o
    /\ apply Python3 (env_lines o) "FOO" "new value" present
       = Ok (Outcome (env_lines o) false EmptyString).
Proof.
  apply (rerun_changes_nothing Python3
           ["# env" ++ nl; "FOO=old" ++ nl; "FOO=dup" ++ nl]
           "FOO" "new value" present).
  - repeat constructor.
  - repeat split; reflexivity.
Defined.

(** C1, the claim as stated: under absent a file with two active
    declarations loses one of them at each run, so the second run
    changes the output of the first. *)
Lemma rerun_absent_changes_again :
  exists o o',
    apply Python3 ["FOO=a" ++ nl; "FOO=b" ++ nl] "FOO" EmptyString absent
    = Ok o
    /\ apply Python3 (env_lines o) "FOO" EmptyString absent = Ok o'
    /\ changed o' = true
    /\ env_lines o' <> env_lines o.
Proof.
  do 2 eexists. split; [reflexivity|]. split; [reflexivity|].
  split; [reflexivity|]. discriminate.
Qed.

(** A value that spans lines is written but not found again. *)
Example rerun_multiline_value (py : python) :
  exists o o',
    apply py [] "FOO" ("a" ++ nl ++ "b") local = Ok o
    /\ apply py (env_lines o) "FOO" ("a" ++ nl ++ "b") local = Ok o'
    /\ changed o' = true
    /\ List.length (env_lines o') = S (List.length (env_lines o)).
Proof. destruct py; do 2 eexists; repeat split. Qed.

(** A name that starts with [export]: the activated line is taken for
    an exported one by the next run. *)
Example rerun_export_like_name (py : python) :
  exists o o',
    apply py ["#exportFOO=old" ++ nl] "exportFOO" "new" present = Ok o
    /\ apply py (env_lines o) "exportFOO" "new" present = Ok o'
    /\ changed o' = true.
Proof. destruct py; do 2 eexists; repeat split. Qed.

(** Deleting the only line leaves an empty file; the next run reports
    no change. *)
Example rerun_absent_only_line (py : python) :
  exists o o',
    apply py ["FOO=a" ++ nl] "FOO" EmptyString absent = Ok o
    /\ env_lines o = []
    /\ apply py (env_lines o) "FOO" EmptyString absent = Ok o'
    /\ changed o' = false.
Proof. destruct py; do 2 eexists; repeat split. Qed.

(** * Further properties *)

(** ** What the declaration patterns accept *)

Section Shapes.

Variable py : python.

Lemma go_tail_iff b s :
  go py [One (Lit "="); Star Dot; Eol] b s = true
  <-> exists body tail,
      s = "=" ++ body ++ tail
      /\ no_newline body = true
      /\ (tail = EmptyString \/ tail = nl).
Proof.
  split.
  - intros H. destruct s as [|c s]; [discriminate|].
    cbn [go] in H. apply andb_true_iff in H as [Hc H].
    apply Ascii.eqb_eq in Hc. subst c.
    apply star_suffix in H as (b' & body & tail & -> & Hbody & H).
    cbn [go] in H. rewrite andb_true_r in H. apply at_end_cases in H.
    exists body, tail. rewrite <- (all_dots_no_newline py). auto.
  - intros (body & tail & -> & Hbody & Htail).
    change ("=" ++ body ++ tail) with (String "=" (body ++ tail)).
    cbn [go accepts]. rewrite Ascii.eqb_refl. cbn [andb].
    apply star_all; [now rewrite all_dots_no_newline|].
    intros b'. cbn [go]. rewrite andb_true_r. now apply at_end_cases.
Qed.

(** The escaped name stands for the name, character by character. *)
Lemma go_assignment_iff name b s :
  go py (escape name ++ [One (Lit "="); Star Dot; Eol]) b s = true
  <-> assignment_text name s.
Proof.
  unfold assignment_text, escape. split.
  - intros H. apply go_lits_inv in H as (b' & s' & -> & H).
    apply go_tail_iff in H as (body & tail & -> & Hbody & Htail).
    exists body, tail. auto.
  - intros (body & tail & -> & Hbody & Htail).
    apply go_lits. intros b'. apply go_tail_iff. exists body, tail. auto.
Qed.

Lemma go_export_iff name b s :
  go py (lits "export" ++ [Plus Space]
           ++ escape name ++ [One (Lit "="); Star Dot; Eol]) b s = true
  <-> exists sp rest,
      s = "export" ++ sp ++ rest
      /\ sp <> EmptyString /\ blanks py sp
      /\ assignment_text name rest.
Proof.
  split.
  - intros H. apply go_lits_inv in H as (b1 & s1 & -> & H).
    cbn [app] in H. destruct s1 as [|c s1]; [discriminate|].
    rewrite go_plus in H. apply andb_true_iff in H as [Hc H].
    apply star_suffix in H as (b2 & sp & rest & -> & Hsp & H).
    apply go_assignment_iff in H.
    exists (String c sp), rest. repeat split; auto; [discriminate|].
    unfold blanks. cbn [all_chars]. cbn [accepts] in Hc. now rewrite Hc.
  - intros (sp & rest & -> & Hne & Hsp & Hrest).
    apply (go_lits py "export"). intros b1. cbn [app].
    destruct sp as [|c sp]; [now elim Hne|].
    unfold blanks in Hsp. cbn [all_chars] in Hsp.
    apply andb_true_iff in Hsp as [Hc Hsp].
    cbn [append]. rewrite go_plus. cbn [accepts]. rewrite Hc. cbn [andb].
    apply star_all; [exact Hsp|]. intros b2. now apply go_assignment_iff.
Qed.

Lemma go_blanks_iff (q : regex) (P : string -> Prop) :
  (forall b s, go py q b s = true <-> P s) ->
  forall b line,
    go py (Star Space :: q) b line = true
    <-> exists ws rest, line = ws ++ rest /\ blanks py ws /\ P rest.
Proof.
  intros Hq b line. rewrite go_star. split.
  - intros H. apply star_suffix in H as (b' & ws & rest & -> & Hws & H).
    apply Hq in H. exists ws, rest. auto.
  - intros (ws & rest & -> & Hws & H).
    apply star_all; [exact Hws|]. intros b'. now apply Hq.
Qed.

Lemma go_comment_iff (q : regex) (P : string -> Prop) :
  (forall b s, go py q b s = true <-> P s) ->
  forall b line,
    go py (Opt (Lit "#") :: q) b line = true
    <-> exists h rest,
        line = h ++ rest /\ (h = EmptyString \/ h = "#") /\ P rest.
Proof.
  intros Hq b line. cbn [go]. split.
  - intros H. apply orb_true_iff in H as [H|H].
    + apply Hq in H. exists EmptyString, line. auto.
    + destruct line as [|c s]; [discriminate|].
      apply andb_true_iff in H as [Hc H]. apply Ascii.eqb_eq in Hc. subst c.
      apply Hq in H. exists "#", s. auto.
  - intros (h & rest & -> & [-> | ->] & H).
    + cbn [append]. apply orb_true_iff. left. now apply Hq.
    + cbn [append accepts]. rewrite Ascii.eqb_refl. cbn [andb].
      apply orb_true_iff. right. now apply Hq.
Qed.

Lemma go_bol (p : regex) s : go py (Bol :: p) true s = go py p true s.
Proof. reflexivity. Qed.

Lemma go_active_iff (q : regex) (P : string -> Prop) :
  (forall b s, go py q b s = true <-> P s) ->
  forall line,
    go py ([Bol; Star Space] ++ q) true line = true
    <-> exists ws rest, line = ws ++ rest /\ blanks py ws /\ P rest.
Proof.
  intros Hq line. cbn [app]. rewrite go_bol. now apply go_blanks_iff.
Qed.

Lemma go_declared_iff (q : regex) (P : string -> Prop) :
  (forall b s, go py q b s = true <-> P s) ->
  forall line,
    go py ([Bol; Star Space; Opt (Lit "#"); Star Space] ++ q) true line = true
    <-> exists ws h ws2 rest,
        line = ws ++ h ++ ws2 ++ rest
        /\ blanks py ws /\ (h = EmptyString \/ h = "#")
        /\ blanks py ws2 /\ P rest.
Proof.
  intros Hq line. cbn [app]. rewrite go_bol.
  pose proof (go_blanks_iff _ _
                (go_comment_iff _ _ (go_blanks_iff _ _ Hq)) true line) as G.
  split.
  - intros H. apply G in H
      as (ws & r1 & -> & Hws & h & r2 & -> & Hh & ws2 & rest & -> & H2 & H).
    exists ws, h, ws2, rest. auto.
  - intros (ws & h & ws2 & rest & -> & Hws & Hh & H2 & H). apply G.
    exists ws, (h ++ ws2 ++ rest). repeat split; auto.
    exists h, (ws2 ++ rest). repeat split; auto.
    exists ws2, rest. auto.
Qed.

(** [match_active_var] holds exactly of the lines made of blanks, then
    [<name>=...] or [export], one blank or more and [<name>=...], the
    name taken literally and the value running to the end of the line. *)
Theorem match_active_var_iff name line :
  match_active_var py name line = true
  <-> exists ws rest,
      line = ws ++ rest /\ blanks py ws /\ declaration_text py name rest.
Proof.
  unfold match_active_var, rmatch, declaration_text.
  pose proof (go_active_iff _ _ (go_assignment_iff name) line) as G1.
  pose proof (go_active_iff _ _ (go_export_iff name) line) as G2.
  split.
  - intros H. apply orb_true_iff in H as [H|H].
    + apply G1 in H as (ws & rest & E & Hws & H). exists ws, rest. auto.
    + apply G2 in H as (ws & rest & E & Hws & H). exists ws, rest. auto.
  - intros (ws & rest & E & Hws & [H|H]); apply orb_true_iff; [left|right].
    + apply G1. exists ws, rest. auto.
    + apply G2. exists ws, rest. auto.
Qed.

(** [match_var] accepts the same lines, and also those with a comment
    marker and further blanks before the declaration. *)
Theorem match_var_iff name line :
  match_var py name line = true
  <-> exists ws h ws2 rest,
      line = ws ++ h ++ ws2 ++ rest
      /\ blanks py ws /\ (h = EmptyString \/ h = "#") /\ blanks py ws2
      /\ declaration_text py name rest.
Proof.
  unfold match_var, rmatch, declaration_text.
  pose proof (go_declared_iff _ _ (go_assignment_iff name) line) as G1.
  pose proof (go_declared_iff _ _ (go_export_iff name) line) as G2.
  split.
  - intros H. apply orb_true_iff in H as [H|H].
    + apply G1 in H as (ws & h & ws2 & rest & E & H).
      exists ws, h, ws2, rest. tauto.
    + apply G2 in H as (ws & h & ws2 & rest & E & H).
      exists ws, h, ws2, rest. tauto.
  - intros (ws & h & ws2 & rest & E & Hws & Hh & H2 & [H|H]);
      apply orb_true_iff; [left|right].
    + apply G1. exists ws, h, ws2, rest. auto.
    + apply G2. exists ws, h, ws2, rest. auto.
Qed.

End Shapes.

(** ** The two interpreters *)

(** Where the interpreters part: a line that starts with the separator
    0x1f, a blank for [\s] on Python 3 only. *)
Example classifiers_differ :
  match_active_var Python2 "FOO" (String "031"%char ("FOO=1" ++ nl)) = false
  /\ match_active_var Python3 "FOO" (String "031"%char ("FOO=1" ++ nl)) = true.
Proof. split; reflexivity. Qed.

(** ** Active declarations *)

(** Every active declaration is a declaration: a line that
    [state=absent] or the clean-up may delete is a line that an update
    would have taken for the declaration site. *)
Theorem active_declaration_is_declaration (py : python) (name line : string) :
  match_active_var py name line = true -> match_var py name line = true.
Proof. exact (active_is_declaration py name line). Qed.

Lemma active_declaration_is_declaration_witness :
  match_var Python3 "FOO" ("  export  FOO=1" ++ nl) = true.
Proof.
  apply (active_declaration_is_declaration Python3 "FOO"
           ("  export  FOO=1" ++ nl)).
  reflexivity.
Defined.

(** The converse fails on a commented declaration. *)
Example declaration_not_active (py : python) :
  match_var py "FOO" ("# FOO=1" ++ nl) = true
  /\ match_active_var py "FOO" ("# FOO=1" ++ nl) = false.
Proof. destruct py; split; reflexivity. Qed.

(** ** More on quoting *)

Lemma length_append (a b : string) :
  String.length (a ++ b) = (String.length a + String.length b)%nat.
Proof. induction a as [|c a IH]; simpl; [reflexivity | now rewrite IH]. Qed.

Lemma append_inj_r (t a b : string) : a ++ t = b ++ t -> a = b.
Proof.
  revert b. induction a as [|c a IH]; intros [|d b] H.
  - reflexivity.
  - apply (f_equal String.length) in H. cbn [append] in H.
    cbn [String.length] in H. rewrite length_append in H. lia.
  - apply (f_equal String.length) in H. cbn [append] in H.
    cbn [String.length] in H. rewrite length_append in H. lia.
  - cbn [append] in H. injection H as -> H. now rewrite (IH b H).
Qed.

Lemma unquote_each_skip k (r t : string) :
  unquote_each k (String.length r) (r ++ t) = unquote_each k 0 t.
Proof. induction r as [|c r IH]; [reflexivity | exact IH]. Qed.

(** [unquote_each] reads [quote_each] back. *)
Lemma unquote_quote_each (r s t : string) :
  unquote_each (String.length r) 0 (quote_each (String "'" r) s ++ t)
  = s ++ unquote_each (String.length r) 0 t.
Proof.
  induction s as [|c s IH]; [reflexivity|].
  cbn [quote_each]. rewrite append_assoc.
  destruct (Ascii.eqb c "'") eqn:E.
  - apply Ascii.eqb_eq in E. subst c.
    cbn [append unquote_each]. rewrite Ascii.eqb_refl.
    now rewrite unquote_each_skip, IH.
  - cbn [append unquote_each]. now rewrite E, IH.
Qed.

Lemma quote_each_inj (r a b : string) :
  quote_each (String "'" r) a = quote_each (String "'" r) b -> a = b.
Proof.
  intros H.
  pose proof (unquote_quote_each r a EmptyString) as Ha.
  pose proof (unquote_quote_each r b EmptyString) as Hb.
  cbn [unquote_each] in Ha, Hb.
  rewrite !append_nil_r in Ha. rewrite !append_nil_r in Hb. congruence.
Qed.

Lemma quoted_inj (r a b : string) :
  squote ++ quote_each (String "'" r) a ++ squote
  = squote ++ quote_each (String "'" r) b ++ squote -> a = b.
Proof.
  intros H. cbn [squote append] in H. injection H as H.
  apply append_inj_r in H. now apply quote_each_inj in H.
Qed.

(** Two values are never written as the same text. *)
Theorem shell_escape_injective (py : python) (a b : string) :
  shell_escape py a = shell_escape py b -> a = b.
Proof.
  destruct py; unfold shell_escape, shlex_quote.
  - rewrite !replace_squote. apply quoted_inj.
  - rewrite !replace_squote.
    destruct a as [|ca a], b as [|cb b]; [reflexivity | | |].
    + destruct (all_chars shlex_safe (String cb b)) eqn:E; intros H.
      * rewrite <- H in E. discriminate.
      * change "''" with (squote ++ quote_each
                            (squote ++ dquote ++ squote ++ dquote ++ squote)
                            EmptyString ++ squote) in H.
        now apply quoted_inj in H.
    + destruct (all_chars shlex_safe (String ca a)) eqn:E; intros H.
      * rewrite H in E. discriminate.
      * change "''" with (squote ++ quote_each
                            (squote ++ dquote ++ squote ++ dquote ++ squote)
                            EmptyString ++ squote) in H.
        now apply quoted_inj in H.
    + destruct (all_chars shlex_safe (String ca a)) eqn:Ea,
               (all_chars shlex_safe (String cb b)) eqn:Eb; intros H.
      * exact H.
      * cbn [squote append] in H. injection H as -> _. discriminate.
      * cbn [squote append] in H. injection H as <- _. discriminate.
      * now apply quoted_inj in H.
Qed.

Lemma shell_escape_injective_witness : "a b" = "a b".
Proof.
  apply (shell_escape_injective Python3 "a b" "a b"). reflexivity.
Defined.

Lemma quote_each_keeps (c : ascii) (rep s : string) :
  mem_char c rep = false -> Ascii.eqb "'" c = false ->
  mem_char c (quote_each rep s) = mem_char c s.
Proof.
  intros Hr Hq. induction s as [|d s IH]; [reflexivity|].
  cbn [quote_each mem_char]. rewrite mem_char_app, IH.
  destruct (Ascii.eqb d "'") eqn:E.
  - apply Ascii.eqb_eq in E. subst d. now rewrite Hr, Hq.
  - cbn [mem_char]. now rewrite orb_false_r.
Qed.

Lemma shell_escape_mem_char (py : python) (c : ascii) (text : string) :
  mem_char c ("'\" ++ dquote) = false ->
  mem_char c (shell_escape py text) = mem_char c text.
Proof.
  intros H. cbn [mem_char append dquote] in H.
  apply orb_false_iff in H as [Hq H]. apply orb_false_iff in H as [Hb H].
  apply orb_false_iff in H as [Hd _].
  assert (Q : forall rep, mem_char c rep = false ->
              mem_char c (squote ++ quote_each rep text ++ squote)
              = mem_char c text).
  { intros rep Hr. rewrite !mem_char_app, (quote_each_keeps c rep text Hr Hq).
    cbn [squote mem_char]. rewrite Hq. cbn [orb]. apply orb_false_r. }
  destruct py; unfold shell_escape, shlex_quote; rewrite replace_squote.
  - apply Q. cbn [mem_char]. now rewrite Hq, Hb.
  - destruct text as [|d t].
    + cbn [mem_char]. now rewrite Hq.
    + destruct (all_chars shlex_safe (String d t)); [reflexivity|].
      apply Q. cbn [squote dquote append mem_char]. now rewrite Hq, Hd.
Qed.

(** Quoting adds quotes, double quotes and backslashes and nothing
    else, and it drops no character: any other character is in the
    escaped text exactly when it is in the value.  So the assignment
    that is written stays on one line exactly when the value does. *)
Theorem shell_escape_keeps_chars (py : python) (c : ascii) (text : string) :
  mem_char c ("'\" ++ dquote) = false ->
  mem_char c (shell_escape py text) = mem_char c text.
Proof. exact (shell_escape_mem_char py c text). Qed.

Lemma shell_escape_keeps_chars_witness :
  mem_char newline (shell_escape Python3 ("a" ++ nl ++ "b"))
  = mem_char newline ("a" ++ nl ++ "b").
Proof.
  apply (shell_escape_keeps_chars Python3 newline ("a" ++ nl ++ "b")).
  reflexivity.
Defined.

(** ** The ways a run ends *)

Section Runs.

Variable py : python.
Variables var val : string.

Lemma absent_or_not (st : state) : st = absent \/ st <> absent.
Proof. destruct st; [now left | right; discriminate ..]. Qed.

Lemma added_marker (st : state) :
  st <> absent ->
  match st with
  | local => line_value py var val
  | _ => "export " ++ line_value py var val
  end
  = marker (negb (is_absent st)
            && match st with local => false | _ => true end)
      ++ line_value py var val.
Proof. destruct st; intros H; [now elim H | reflexivity ..]. Qed.

Lemma apply_run (lines : list string) st o :
  apply py lines var val st = Ok o ->
  unterminated (guard_empty lines) = false /\ run py lines var val st o.
Proof.
  intros H.
  assert (Hterm : unterminated (guard_empty lines) = false).
  { apply (apply_raises_iff py lines var val st). eauto. }
  split; [exact Hterm|].
  destruct (absent_or_not st) as [-> | Hst].
  - destruct (first_match (match_active_var py var) lines)
      as [Hnone | (pre & line & post & -> & Hpre & Hline)].
    + rewrite (apply_absent_none py var val lines Hnone Hterm) in H.
      injection H as <-. now constructor.
    + rewrite guard_empty_cons in Hterm.
      rewrite (apply_absent_found py var val pre line post Hpre Hline Hterm)
        in H.
      injection H as <-. now apply (run_removed _ _ _ _ _ pre line post).
  - pose proof (not_absent st Hst) as Ha.
    destruct (first_match (match_var py var) lines)
      as [Hnone | (pre & line & post & -> & Hpre & Hline)].
    + rewrite (apply_not_found py var val st lines Ha Hnone Hterm) in H.
      rewrite (added_marker st Hst) in H.
      injection H as <-. now apply run_added.
    + rewrite guard_empty_cons in Hterm.
      rewrite (apply_found py var val st pre line post Ha Hpre Hline Hterm)
        in H.
      cbv zeta in H. destruct (String.eqb line _) eqn:E; injection H as <-.
      * apply String.eqb_eq in E. rewrite <- E.
        now apply (run_kept _ _ _ _ _ pre line post).
      * apply String.eqb_neq in E.
        now apply (run_changed _ _ _ _ _ pre line post).
Qed.

End Runs.

(** ** What a run reports and what it leaves alone *)

Section Outcomes.

Variable py : python.
Variables var val : string.

Lemma app_cons_neq {A : Type} (pre : list A) x post :
  (pre ++ post)%list <> (pre ++ x :: post)%list.
Proof.
  intros E. apply (f_equal (@List.length A)) in E.
  rewrite !length_app in E. cbn [List.length] in E. lia.
Qed.

Lemma app_one_neq {A : Type} (l : list A) x : (l ++ [x])%list <> l.
Proof.
  intros E. apply (f_equal (@List.length A)) in E.
  rewrite length_app in E. cbn [List.length] in E. lia.
Qed.

(** [changed] is false exactly when the lines that would be written are
    the lines that were read (with the guard line for an empty file):
    no write is skipped that would alter the file, none is made that
    would not. *)
Theorem changed_iff_lines_differ (lines : list string) st o :
  apply py lines var val st = Ok o ->
  (changed o = false <-> env_lines o = guard_empty lines).
Proof.
  intros H. apply apply_run in H as [_ R].
  destruct R as [ | pre line post _ -> | | pre line post _ -> | pre line post _ -> _ _ N];
    cbn [changed env_lines]; try rewrite guard_empty_cons.
  - tauto.
  - split; [discriminate|]. intros E. now apply app_cons_neq in E.
  - split; [discriminate|]. intros E. now apply app_one_neq in E.
  - tauto.
  - split; [discriminate|]. intros E.
    apply app_inv_head in E. injection E as E _. now elim N.
Qed.

(** The message tells what was done: it is empty exactly when nothing
    changed; under absent the only other message is [var removed],
    under the other states [var added] or [var changed]. *)
Theorem message_tells_change (lines : list string) st o :
  apply py lines var val st = Ok o ->
  (msg o = EmptyString <-> changed o = false)
  /\ (st = absent -> msg o = EmptyString \/ msg o = "var removed")
  /\ (st <> absent ->
      msg o = EmptyString \/ msg o = "var added" \/ msg o = "var changed").
Proof.
  intros H. apply apply_run in H as [_ R].
  destruct R; cbn [changed msg]; repeat split;
    try discriminate; try tauto; try congruence; auto.
Qed.

Lemma undeclared_inactive (l : string) :
  undeclared py var l -> inactive py var l.
Proof.
  unfold undeclared, inactive. intros H.
  destruct (match_active_var py var l) eqn:E; [|reflexivity].
  apply active_is_declaration in E. congruence.
Qed.

Lemma filter_none {A : Type} (f : A -> bool) (l : list A) :
  Forall (fun x => f x = false) l -> filter f l = [].
Proof.
  induction 1 as [|x l Hx _ IH]; [reflexivity|].
  cbn [filter]. now rewrite Hx.
Qed.

Lemma active_count_app (a b : list string) :
  active_count py var (a ++ b)
  = (active_count py var a + active_count py var b)%nat.
Proof. unfold active_count. now rewrite filter_app, length_app. Qed.

Lemma active_count_none (l : list string) :
  Forall (inactive py var) l -> active_count py var l = 0%nat.
Proof. intros H. unfold active_count. now rewrite (filter_none _ _ H). Qed.

Lemma active_count_guard (lines : list string) :
  active_count py var (guard_empty lines) = active_count py var lines.
Proof.
  destruct lines; [|reflexivity].
  apply active_count_none. constructor; [|constructor].
  apply guard_line_inactive.
Qed.

Lemma prune_inactive (l : list string) :
  Forall (inactive py var) (prune py var l).
Proof.
  induction l as [|x l IH]; [constructor|].
  cbn [prune]. destruct (match_active_var py var x) eqn:E; [exact IH|].
  now constructor.
Qed.

Lemma filter_prune_undeclared (l : list string) :
  filter (fun x => negb (match_var py var x)) (prune py var l)
  = filter (fun x => negb (match_var py var x)) l.
Proof.
  induction l as [|x l IH]; [reflexivity|].
  cbn [prune filter]. destruct (match_active_var py var x) eqn:E.
  - rewrite (active_is_declaration py var x E). exact IH.
  - cbn [filter]. now rewrite IH.
Qed.

Lemma filter_undeclared_all (l : list string) :
  Forall (undeclared py var) l ->
  filter (fun x => negb (match_var py var x)) l = l.
Proof.
  induction 1 as [|x l Hx _ IH]; [reflexivity|].
  cbn [filter]. unfold undeclared in Hx. now rewrite Hx, IH.
Qed.

(** A run leaves alone every line that is no declaration of the
    variable: these lines come out as they went in, all of them and in
    the same order, whatever the state.  (For a value without newline;
    one that spans lines is written as a line that is itself no
    declaration.) *)
Theorem other_lines_untouched (lines : list string) st o :
  no_newline val = true ->
  apply py lines var val st = Ok o ->
  filter (fun l => negb (match_var py var l)) (env_lines o)
  = filter (fun l => negb (match_var py var l)) (guard_empty lines).
Proof.
  intros Hv H. apply apply_run in H as [_ R].
  pose proof (written_line_declared py var val) as W.
  destruct R as [ | pre line post _ -> _ Hl | | pre line post _ ->
                | pre line post _ -> _ Hl _];
    cbn [env_lines]; try rewrite guard_empty_cons; try reflexivity.
  - rewrite !filter_app. cbn [filter].
    now rewrite (active_is_declaration py var line Hl).
  - rewrite filter_app. cbn [filter]. rewrite (W _ Hv). cbn [negb].
    apply app_nil_r.
  - rewrite !filter_app. cbn [filter].
    now rewrite (W _ Hv), Hl, filter_prune_undeclared.
Qed.

End Outcomes.

Lemma changed_iff_lines_differ_witness :
  changed (Outcome ["FOO='new'" ++ nl] true "var changed") = false
  <-> env_lines (Outcome ["FOO='new'" ++ nl] true "var changed")
      = guard_empty ["FOO=old" ++ nl].
Proof.
  apply (changed_iff_lines_differ Python2 "FOO" "new"
           ["FOO=old" ++ nl] present).
  reflexivity.
Defined.

Lemma message_tells_change_witness :
  (msg (Outcome ["BAR=1" ++ nl] true "var removed") = EmptyString
   <-> changed (Outcome ["BAR=1" ++ nl] true "var removed") = false)
  /\ (absent = absent ->
      msg (Outcome ["BAR=1" ++ nl] true "var removed") = EmptyString
      \/ msg (Outcome ["BAR=1" ++ nl] true "var removed") = "var removed")
  /\ (absent <> absent ->
      msg (Outcome ["BAR=1" ++ nl] true "var removed") = EmptyString
      \/ msg (Outcome ["BAR=1" ++ nl] true "var removed") = "var added"
      \/ msg (Outcome ["BAR=1" ++ nl] true "var removed") = "var changed").
Proof.
  apply (message_tells_change Python2 "FOO" EmptyString
           ["FOO=1" ++ nl; "BAR=1" ++ nl] absent).
  reflexivity.
Defined.

Lemma other_lines_untouched_witness :
  filter (fun l => negb (match_var Python3 "FOO" l))
         (env_lines (Outcome ["# top" ++ nl; "export FOO='a b'" ++ nl;
                              "BAR=2" ++ nl] true "var changed"))
  = filter (fun l => negb (match_var Python3 "FOO" l))
           (guard_empty ["# top" ++ nl; "#FOO=1" ++ nl; "BAR=2" ++ nl;
                         "FOO=3" ++ nl]).
Proof.
  apply (other_lines_untouched Python3 "FOO" "a b"
           ["# top" ++ nl; "#FOO=1" ++ nl; "BAR=2" ++ nl; "FOO=3" ++ nl]
           exported).
  - reflexivity.
  - reflexivity.
Defined.

(** ** Counting active declarations *)

Section Counting.

Variable py : python.
Variables var val : string.

Lemma active_count_undeclared (l : list string) :
  Forall (undeclared py var) l -> active_count py var l = 0%nat.
Proof.
  intros H. apply active_count_none.
  apply Forall_impl with (2 := H). apply undeclared_inactive.
Qed.

Lemma active_count_one (l : string) :
  match_active_var py var l = true -> active_count py var [l] = 1%nat.
Proof. intros H. unfold active_count. cbn [filter]. now rewrite H. Qed.

Lemma written_line_active b :
  no_newline val = true ->
  match_active_var py var (marker b ++ line_value py var val) = true.
Proof.
  intros Hv. apply (shell_escape_no_newline py) in Hv.
  unfold line_value. destruct b; cbn [marker].
  - now apply active_export_assignment.
  - now apply active_assignment.
Qed.

(** After a run that added or changed the declaration (states present,
    local, exported; a value without newline) the file holds exactly
    one active declaration of the variable. *)
Theorem one_active_after_change (lines : list string) st o :
  st <> absent -> no_newline val = true ->
  apply py lines var val st = Ok o ->
  changed o = true ->
  active_count py var (env_lines o) = 1%nat.
Proof.
  intros Hst Hv H Hc. apply apply_run in H as [_ R].
  destruct R as [ E | pre line post E | N Hl | | pre line post _ -> Hpre _ _];
    try discriminate; try (now elim Hst); cbn [env_lines].
  - rewrite active_count_app, active_count_guard.
    rewrite (active_count_undeclared _ Hl).
    apply active_count_one. now apply written_line_active.
  - rewrite active_count_app, (active_count_undeclared _ Hpre).
    change (?x :: prune py var post)%list
      with ([x] ++ prune py var post)%list.
    rewrite active_count_app, (active_count_none py var _ (prune_inactive py var post)).
    rewrite Nat.add_0_r. apply active_count_one.
    now apply written_line_active.
Qed.

Lemma absent_count (lines : list string) o :
  apply py lines var val absent = Ok o ->
  active_count py var (env_lines o) = (active_count py var lines - 1)%nat
  /\ (changed o = true <-> active_count py var lines <> 0%nat).
Proof.
  intros H. apply apply_run in H as [_ R].
  destruct R as [ _ Hl | pre line post _ -> Hpre Hline | N | pre line post N
                | pre line post N]; try (now elim N); cbn [env_lines changed].
  - rewrite active_count_guard, (active_count_none py var _ Hl).
    split; [reflexivity|]. split; [discriminate | intros E; now elim E].
  - change (line :: post)%list with ([line] ++ post)%list.
    rewrite !active_count_app, (active_count_none py var _ Hpre).
    rewrite (active_count_one _ Hline). cbn [Nat.add].
    split; [lia|]. split; [discriminate | reflexivity].
Qed.

(** Under absent a run takes one active declaration away when there is
    one, and says so: [changed] holds exactly when the file held an
    active declaration, and the count goes down by one. *)
Theorem absent_takes_one (lines : list string) o :
  apply py lines var val absent = Ok o ->
  active_count py var (env_lines o) = (active_count py var lines - 1)%nat
  /\ (changed o = true <-> active_count py var lines <> 0%nat).
Proof. exact (absent_count lines o). Qed.

(** The value plays no part under absent. *)
Lemma update_absent_any_value lv1 lv2 c (lines : list string) :
  update py var lv1 absent c lines = update py var lv2 absent c lines.
Proof.
  induction lines as [|l ls IH]; [reflexivity|].
  cbn [update is_absent]. now rewrite IH.
Qed.

End Counting.

Lemma one_active_after_change_witness :
  active_count Python3 "FOO"
    (env_lines (Outcome ["FOO='a b'" ++ nl; "BAR=2" ++ nl] true "var changed"))
  = 1%nat.
Proof.
  apply (one_active_after_change Python3 "FOO" "a b"
           ["#FOO=1" ++ nl; "BAR=2" ++ nl; "FOO=3" ++ nl; "export FOO=4" ++ nl]
           local).
  - discriminate.
  - reflexivity.
  - reflexivity.
  - reflexivity.
Defined.

Lemma absent_takes_one_witness :
  active_count Python2 "FOO"
    (env_lines (Outcome ["#FOO=1" ++ nl; "export FOO=3" ++ nl]
                        true "var removed"))
  = (active_count Python2 "FOO"
       ["#FOO=1" ++ nl; "FOO=2" ++ nl; "export FOO=3" ++ nl] - 1)%nat
  /\ (changed (Outcome ["#FOO=1" ++ nl; "export FOO=3" ++ nl]
                       true "var removed") = true
      <-> active_count Python2 "FOO"
            ["#FOO=1" ++ nl; "FOO=2" ++ nl; "export FOO=3" ++ nl] <> 0%nat).
Proof.
  apply (absent_takes_one Python2 "FOO" "ignored"
           ["#FOO=1" ++ nl; "FOO=2" ++ nl; "export FOO=3" ++ nl]).
  reflexivity.
Defined.

(** [state=absent] does not look at the value: whatever [val] is
    passed, the run is the same. *)
Theorem absent_ignores_value py (lines : list string) var val1 val2 :
  apply py lines var val1 absent = apply py lines var val2 absent.
Proof.
  unfold apply. destruct (unterminated (guard_empty lines)); [reflexivity|].
  cbv zeta.
  now rewrite (update_absent_any_value py var (line_value py var val1)
                 (line_value py var val2)).
Qed.

(** With no declaration in the file, present does what exported does
    (the remark at source line 170). *)
Theorem present_adds_like_exported py (lines : list string) var val :
  Forall (undeclared py var) lines ->
  apply py lines var val present = apply py lines var val exported.
Proof.
  intros Hl. unfold apply.
  destruct (unterminated (guard_empty lines)) eqn:Hterm; [reflexivity|].
  pose proof (apply_not_found py var val present lines eq_refl Hl Hterm) as P.
  pose proof (apply_not_found py var val exported lines eq_refl Hl Hterm) as X.
  unfold apply in P, X. rewrite Hterm in P, X. cbv zeta in P, X.
  cbv zeta. now rewrite P, X.
Qed.

Lemma present_adds_like_exported_witness :
  apply Python3 ["# only a comment" ++ nl] "FOO" "bar" present
  = apply Python3 ["# only a comment" ++ nl] "FOO" "bar" exported.
Proof.
  apply (present_adds_like_exported Python3 ["# only a comment" ++ nl]
           "FOO" "bar").
  repeat constructor.
Defined.

(** With a declaration that is not exported the two differ. *)
Example present_keeps_local :
  apply Python3 ["FOO=bar" ++ nl] "FOO" "bar" present
  <> apply Python3 ["FOO=bar" ++ nl] "FOO" "bar" exported.
Proof. vm_compute. discriminate. Qed.

(** ** Lines that end in a newline *)

Lemma guard_all_terminated (lines : list string) :
  Forall (fun l => terminated l = true) lines ->
  Forall (fun l => terminated l = true) (guard_empty lines).
Proof.
  intros H. destruct lines; [|exact H]. now repeat constructor.
Qed.

Lemma apply_keeps_terminated py (lines : list string) var val st :
  Forall (fun l => terminated l = true) lines ->
  exists o,
    apply py lines var val st = Ok o
    /\ Forall (fun l => terminated l = true) (env_lines o).
Proof.
  intros HT.
  destruct (proj2 (proj2 (apply_raises_iff py lines var val st))
              (guard_terminated lines HT)) as [o H].
  exists o. split; [exact H|].
  apply apply_run in H as [_ R].
  destruct R as [ | pre line post _ -> | | | pre line post _ ->];
    cbn [env_lines].
  - now apply guard_all_terminated.
  - apply Forall_app in HT as [T1 T2]. apply Forall_cons_iff in T2 as [_ T2].
    apply Forall_app. now split.
  - apply Forall_app. split; [now apply guard_all_terminated|].
    constructor; [apply written_line_terminated | constructor].
  - exact HT.
  - apply Forall_app in HT as [T1 T2]. apply Forall_cons_iff in T2 as [_ T2].
    apply Forall_app. split; [exact T1|].
    constructor; [apply written_line_terminated | now apply prune_terminated].
Qed.

(** On a file whose lines all end in a newline the run returns, and
    the lines it leaves all end in a newline again: [apply] accepts its
    own output, and a file that it writes never lacks the final
    newline. *)
Theorem lines_stay_terminated py (lines : list string) var val st :
  Forall (fun l => terminated l = true) lines ->
  exists o,
    apply py lines var val st = Ok o
    /\ Forall (fun l => terminated l = true) (env_lines o).
Proof. exact (apply_keeps_terminated py lines var val st). Qed.

Lemma lines_stay_terminated_witness :
  exists o,
    apply Python2 ["FOO=1" ++ nl; "BAR=2" ++ nl] "BAR" EmptyString absent
    = Ok o
    /\ Forall (fun l => terminated l = true) (env_lines o).
Proof.
  apply (lines_stay_terminated Python2 ["FOO=1" ++ nl; "BAR=2" ++ nl]
           "BAR" EmptyString absent).
  repeat constructor.
Defined.

(** Under absent each run deletes one active declaration, so as many
    runs as the file holds active declarations (or more) leave none. *)
Theorem absent_runs_remove_all py (n : nat) (lines : list string) var val :
  Forall (fun l => terminated l = true) lines ->
  (active_count py var lines <= n)%nat ->
  exists out,
    apply_times n py lines var val absent = Ok out
    /\ active_count py var out = 0%nat.
Proof.
  revert lines. induction n as [|n IH]; intros lines HT Hn.
  - exists lines. split; [reflexivity | lia].
  - destruct (apply_keeps_terminated py lines var val absent HT)
      as (o & Ho & HTo).
    destruct (absent_count py var val lines o Ho) as [Hc _].
    destruct (IH (env_lines o) HTo) as (out & Hout & Hz); [lia|].
    exists out. cbn [apply_times]. rewrite Ho. auto.
Qed.

Lemma absent_runs_remove_all_witness :
  exists out,
    apply_times 2 Python3
      ["FOO=1" ++ nl; "# note" ++ nl; "export FOO=2" ++ nl] "FOO"
      EmptyString absent = Ok out
    /\ active_count Python3 "FOO" out = 0%nat.
Proof.
  apply (absent_runs_remove_all Python3 2
           ["FOO=1" ++ nl; "# note" ++ nl; "export FOO=2" ++ nl]
           "FOO" EmptyString).
  - repeat constructor.
  - vm_compute. lia.
Defined.

(** One run is not enough for two declarations. *)
Example absent_one_run_leaves_one :
  exists out,
    apply_times 1 Python3 ["FOO=1" ++ nl; "export FOO=2" ++ nl] "FOO"
                EmptyString absent = Ok out
    /\ active_count Python3 "FOO" out = 1%nat.
Proof. eexists. split; reflexivity. Qed.

(** ** Reading and writing lines *)

(** What [readlines] cuts, [writelines] puts together again: writing
    back the lines that were read gives the text that was read (on
    Python 2 the very bytes of the file). *)
Lemma writelines_split (s : string) : writelines (split_lines s) = s.
Proof.
  induction s as [|c s IH]; [reflexivity|].
  cbn [split_lines]. destruct (Ascii.eqb c newline).
  - cbn [writelines append]. now rewrite IH.
  - destruct (split_lines s) as [|l ls].
    + cbn [writelines] in IH. subst s. reflexivity.
    + cbn [writelines append] in IH |- *. now rewrite IH.
Qed.

Theorem writelines_readlines (py : python) (content : string) :
  writelines (readlines py content) = decode_newlines py content
  /\ writelines (readlines Python2 content) = content.
Proof. split; apply writelines_split. Qed.

Lemma split_lines_nil (s : string) : split_lines s = [] -> s = EmptyString.
Proof.
  intros H. apply (f_equal writelines) in H.
  now rewrite writelines_split in H.
Qed.

Lemma split_lines_nonempty (s : string) :
  Forall (fun l => l <> EmptyString) (split_lines s).
Proof.
  induction s as [|c s IH]; [constructor|].
  cbn [split_lines]. destruct (Ascii.eqb c newline).
  - constructor; [discriminate | exact IH].
  - destruct (split_lines s) as [|l ls].
    + constructor; [discriminate | constructor].
    + apply Forall_cons_iff in IH as [_ IH].
      constructor; [discriminate | exact IH].
Qed.

Lemma last_char_cons (c : ascii) (s : string) :
  s <> EmptyString -> last_char (String c s) = last_char s.
Proof. destruct s; [intros H; now elim H | reflexivity]. Qed.

(** The last line read ends as the text ends. *)
Lemma last_char_split (s : string) :
  last_char (last (split_lines s) EmptyString) = last_char s.
Proof.
  induction s as [|c s IH]; [reflexivity|].
  pose proof (split_lines_nonempty s) as NE.
  pose proof (split_lines_nil s) as NIL.
  cbn [split_lines]. destruct (Ascii.eqb c newline).
  - destruct (split_lines s) as [|l ls] eqn:E.
    + now rewrite (NIL eq_refl).
    + change (last (String c EmptyString :: l :: ls) EmptyString)
        with (last (l :: ls) EmptyString).
      rewrite IH. symmetry. apply last_char_cons.
      intros ->. discriminate.
  - destruct (split_lines s) as [|l ls] eqn:E.
    + now rewrite (NIL eq_refl).
    + assert (Hs : s <> EmptyString) by (intros ->; discriminate).
      rewrite (last_char_cons c s Hs), <- IH.
      destruct ls as [|l2 ls]; [|reflexivity].
      cbn [last]. apply last_char_cons.
      now apply Forall_cons_iff in NE as [NE _].
Qed.

(** The lines of a text are refused exactly when the text is not empty
    and does not end in a newline. *)
Lemma unterminated_split (s : string) :
  unterminated (guard_empty (split_lines s)) = true
  <-> s <> EmptyString /\ terminated s = false.
Proof.
  destruct (split_lines s) as [|l ls] eqn:E.
  - rewrite (split_lines_nil s E). cbn. split; [discriminate|].
    intros [N _]. now elim N.
  - assert (Hs : s <> EmptyString) by (intros ->; discriminate).
    cbn [guard_empty]. unfold unterminated, terminated.
    rewrite <- E, last_char_split.
    destruct (last_char s) as [c|] eqn:L.
    + rewrite negb_true_iff. tauto.
    + destruct s as [|c s]; [now elim Hs|].
      exfalso. clear -L. revert c L.
      induction s as [|d s IH]; intros c L; [discriminate|].
      apply (IH d). exact L.
Qed.

Lemma whole_line_terminated (l : string) :
  whole_line l -> terminated l = true.
Proof. intros (body & -> & _). apply terminated_app_nl. Qed.

Lemma terminated_cons (c : ascii) (s : string) :
  s <> EmptyString -> terminated (String c s) = terminated s.
Proof. intros H. unfold terminated. now rewrite last_char_cons. Qed.

(** A text that ends in a newline is cut into whole lines. *)
Lemma split_whole_lines (s : string) :
  terminated s = true -> Forall whole_line (split_lines s).
Proof.
  induction s as [|c s IH]; intros HT; [constructor|].
  cbn [split_lines]. destruct (Ascii.eqb c newline) eqn:Ec.
  - apply Ascii.eqb_eq in Ec. subst c. constructor.
    + exists EmptyString. auto.
    + destruct s as [|d s]; [constructor|].
      apply IH. rewrite terminated_cons in HT; [exact HT | discriminate].
  - destruct s as [|d s].
    + unfold terminated in HT. cbn [last_char] in HT. congruence.
    + rewrite terminated_cons in HT by discriminate.
      specialize (IH HT).
      destruct (split_lines (String d s)) as [|l ls] eqn:E.
      * apply split_lines_nil in E. discriminate.
      * apply Forall_cons_iff in IH as [(body & -> & Hb) IH].
        constructor; [|exact IH].
        exists (String c body). split; [reflexivity|].
        now rewrite no_newline_cons, Ec, Hb.
Qed.

Lemma split_whole (body rest : string) :
  no_newline body = true ->
  split_lines ((body ++ nl) ++ rest) = (body ++ nl) :: split_lines rest.
Proof.
  induction body as [|c b IH]; intros Hb; [reflexivity|].
  rewrite no_newline_cons in Hb. apply andb_true_iff in Hb as [Hc Hb].
  apply negb_true_iff in Hc.
  cbn [append split_lines]. rewrite Hc.
  cbn [append] in IH. now rewrite (IH Hb).
Qed.

(** Whole lines that are written are read again as they were. *)
Lemma split_writelines (lines : list string) :
  Forall whole_line lines -> split_lines (writelines lines) = lines.
Proof.
  induction 1 as [|l ls (body & -> & Hb) _ IH]; [reflexivity|].
  cbn [writelines]. now rewrite split_whole, IH.
Qed.

Lemma universal_id (s : string) :
  mem_char carriage_return s = false -> universal_newlines s = s.
Proof.
  induction s as [|c s IH]; intros H; [reflexivity|].
  cbn [mem_char] in H. apply orb_false_iff in H as [Hc H].
  cbn [universal_newlines]. now rewrite Hc, (IH H).
Qed.

Lemma decode_id (py : python) (s : string) :
  cr_free py s = true -> decode_newlines py s = s.
Proof.
  destruct py; [reflexivity|]. cbn [cr_free decode_newlines].
  intros H. apply negb_true_iff in H. now apply universal_id.
Qed.

Lemma cr_free_app (py : python) (a b : string) :
  cr_free py (a ++ b) = cr_free py a && cr_free py b.
Proof.
  destruct py; [reflexivity|]. cbn [cr_free].
  now rewrite mem_char_app, negb_orb.
Qed.

Lemma cr_free_writelines (py : python) (lines : list string) :
  Forall (fun l => cr_free py l = true) lines ->
  cr_free py (writelines lines) = true.
Proof.
  induction 1 as [|l ls Hl _ IH]; [now destruct py|].
  cbn [writelines]. now rewrite cr_free_app, Hl, IH.
Qed.

Lemma universal_cr_free (s : string) :
  mem_char carriage_return (universal_newlines s) = false.
Proof.
  assert (G : forall n s, (String.length s <= n)%nat ->
                          mem_char carriage_return (universal_newlines s)
                          = false).
  { clear s. induction n as [|n IH]; intros [|c s] L;
      try reflexivity; cbn [String.length] in L; [lia|].
    cbn [universal_newlines]. destruct (Ascii.eqb c carriage_return) eqn:E.
    - cbn [mem_char]. change (Ascii.eqb newline carriage_return) with false.
      cbn [orb]. destruct s as [|d s]; [reflexivity|].
      cbn [String.length] in L.
      destruct (Ascii.eqb d newline); apply IH; cbn [String.length]; lia.
    - cbn [mem_char]. rewrite E. apply IH. lia. }
  now apply (G (String.length s)).
Qed.

Lemma split_lines_keep (c : ascii) (s : string) :
  mem_char c s = false ->
  Forall (fun l => mem_char c l = false) (split_lines s).
Proof.
  induction s as [|d s IH]; intros H; [constructor|].
  cbn [mem_char] in H. apply orb_false_iff in H as [Hd H].
  specialize (IH H). cbn [split_lines]. destruct (Ascii.eqb d newline).
  - constructor; [|exact IH]. cbn [mem_char]. now rewrite Hd.
  - destruct (split_lines s) as [|l ls].
    + constructor; [|constructor]. cbn [mem_char]. now rewrite Hd.
    + apply Forall_cons_iff in IH as [Hl IH].
      constructor; [|exact IH]. cbn [mem_char]. now rewrite Hd, Hl.
Qed.

Lemma readlines_cr_free (py : python) (content : string) :
  Forall (fun l => cr_free py l = true) (readlines py content).
Proof.
  destruct py; unfold readlines, cr_free, decode_newlines.
  - apply Forall_forall. auto.
  - pose proof (split_lines_keep carriage_return _
                  (universal_cr_free content)) as H.
    apply Forall_impl with (2 := H). intros l Hl. now rewrite Hl.
Qed.

(** Written whole lines without carriage return are read back as they
    were written. *)
Lemma reread_written (py : python) (lines : list string) :
  Forall whole_line lines ->
  Forall (fun l => cr_free py l = true) lines ->
  readlines py (writelines lines) = lines.
Proof.
  intros W C. unfold readlines.
  rewrite (decode_id py _ (cr_free_writelines py lines C)).
  now apply split_writelines.
Qed.

(** Lines that are each some text without newline followed by one
    newline, and hold no carriage return where Python 3 reads them,
    come back from the file as they were written: writing and reading
    again is the identity on them. *)
Theorem readlines_writelines (py : python) (lines : list string) :
  Forall whole_line lines ->
  Forall (fun l => cr_free py l = true) lines ->
  readlines py (writelines lines) = lines.
Proof. exact (reread_written py lines). Qed.

Lemma readlines_writelines_witness :
  readlines Python3 (writelines [nl; "export FOO='a b'" ++ nl])
  = [nl; "export FOO='a b'" ++ nl].
Proof.
  apply (readlines_writelines Python3 [nl; "export FOO='a b'" ++ nl]).
  - constructor; [exists EmptyString; auto|].
    constructor; [exists "export FOO='a b'"; auto | constructor].
  - repeat constructor.
Defined.

(** A line with a newline inside is not read back as one line. *)
Example readlines_splits_value (py : python) :
  readlines py (writelines ["FOO='a" ++ nl ++ "b'" ++ nl])
  = ["FOO='a" ++ nl; "b'" ++ nl].
Proof. destruct py; reflexivity. Qed.

(** ** The whole of [apply], on the target *)

Section Target.

Variable py : python.
Variable h : host.
Variable m : ansible_module.
Variables var val : string.
Variable st : state.
Variables create backup : bool.

(** On a file that exists and that the interpreter can read, the run
    dies of the [NameError] exactly when the text is not empty and does
    not end in a newline.  On an empty text or one that ends in a
    newline it gets to the end: it returns, or, on Python 3 outside
    check mode, fails to encode what it has to write.  (The disjunct
    [env_lines[-1] == ''] of the source never holds of lines that were
    read.) *)
Theorem target_raises_iff (content : string) :
  (apply_target py h m (File content) var val st create backup
   = Uncaught NameError
   <-> decode_newlines py content <> EmptyString
       /\ terminated (decode_newlines py content) = false)
  /\ ((exists r, apply_target py h m (File content) var val st create backup
                 = Return r)
      \/ apply_target py h m (File content) var val st create backup
         = EncodeError
      <-> decode_newlines py content = EmptyString
          \/ terminated (decode_newlines py content) = true)
  /\ (apply_target py h m (File content) var val st create backup
      = EncodeError
      -> py = Python3 /\ check_mode m = false).
Proof.
  pose proof (unterminated_split (decode_newlines py content)) as U.
  unfold apply_target, load, readlines, apply.
  destruct (unterminated
              (guard_empty (split_lines (decode_newlines py content))))
    eqn:F.
  - destruct (proj1 U eq_refl) as [T1 T2]. repeat split.
    + auto.
    + auto.
    + intros [[r H]|H]; discriminate.
    + intros [H|H]; congruence.
    + discriminate.
    + discriminate.
  - cbv zeta.
    set (o := add_missing _ _ _).
    assert (T : decode_newlines py content = EmptyString
                \/ terminated (decode_newlines py content) = true).
    { destruct (decode_newlines py content) as [|c s] eqn:D;
        [now left | right].
      destruct (terminated (String c s)) eqn:T; [reflexivity|].
      assert (false = true)
        by (apply U; split; [discriminate | reflexivity]).
      discriminate. }
    destruct (changed o && negb (check_mode m)
              && write_fails py h (writelines (env_lines o))) eqn:W.
    + apply andb_true_iff in W as [W1 W2].
      apply andb_true_iff in W1 as [_ W1]. apply negb_true_iff in W1.
      repeat split; try discriminate; auto.
      * intros H. apply U in H. discriminate.
      * destruct py; [discriminate | reflexivity].
    + repeat split; try discriminate; eauto.
      intros H. apply U in H. discriminate.
Qed.

End Target.

(** The file of the defect: one line, no final newline. *)
Example target_without_newline (py : python) (h : host)
        (m : ansible_module) :
  apply_target py h m (File "FOO=bar") "FOO" "bar" present false false
  = Uncaught NameError.
Proof. destruct py; reflexivity. Qed.

(** A file that the codec rejects ends the run on Python 3 before any
    line is looked at. *)
Example target_undecodable (h : host) (m : ansible_module)
        (bytes var val : string) (st : state) (create backup : bool) :
  apply_target Python3 h m (Undecodable bytes) var val st create backup
  = DecodeError.
Proof. reflexivity. Qed.

(** A value that the codec cannot encode: nothing is written. *)
Example target_unencodable :
  apply_target Python3 (Host (all_chars (fun c => (code c <? 128)%nat)))
    (AnsibleModule false false) (File ("A=1" ++ nl))
    "FOO" (String "233"%char EmptyString) present false false
  = EncodeError.
Proof. reflexivity. Qed.

(** A missing target: refused without [create]; with it, a bare file
    name cannot be made outside check mode. *)
Example target_missing (py : python) (h : host) (m : ansible_module)
        (d : parent) :
  apply_target py h m (Missing d) "FOO" "bar" present false false
  = FailJson 257
  /\ (check_mode m = false ->
      apply_target py h m (Missing NoParent) "FOO" "bar" present true false
      = MakedirsError).
Proof.
  split; [reflexivity|]. intros H. unfold apply_target, load.
  cbn [negb]. now rewrite H.
Qed.

(** ** Running the module twice on a file *)

Section Twice.

Variable py : python.
Variables var val : string.

Lemma prune_Forall (P : string -> Prop) (lines : list string) :
  Forall P lines -> Forall P (prune py var lines).
Proof.
  induction 1 as [|x l Hx Hl IH]; cbn [prune]; [constructor|].
  destruct (match_active_var py var x); [exact IH | now constructor].
Qed.

Lemma marker_no_newline b : no_newline (marker b) = true.
Proof. now destruct b. Qed.

Lemma marker_cr_free b : cr_free py (marker b) = true.
Proof. destruct py, b; reflexivity. Qed.

Lemma written_whole_line b :
  no_newline var = true -> no_newline val = true ->
  whole_line (marker b ++ line_value py var val).
Proof.
  intros Hn Hv. apply (shell_escape_no_newline py) in Hv.
  exists (marker b ++ var ++ "=" ++ shell_escape py val). split.
  - unfold line_value. now rewrite !append_assoc.
  - now rewrite !no_newline_app, marker_no_newline, Hn, Hv.
Qed.

Lemma shell_escape_cr_free :
  cr_free py (shell_escape py val) = cr_free py val.
Proof.
  destruct py; [reflexivity|]. cbn [cr_free].
  now rewrite (shell_escape_mem_char Python3 carriage_return val eq_refl).
Qed.

Lemma written_cr_free b :
  cr_free py var = true -> cr_free py val = true ->
  cr_free py (marker b ++ line_value py var val) = true.
Proof.
  intros Hn Hv. unfold line_value.
  rewrite !cr_free_app, marker_cr_free, Hn, shell_escape_cr_free, Hv.
  now destruct py.
Qed.

(** Lines fit to be written and read again stay so through a run. *)
Lemma run_keeps (P : string -> Prop) (lines : list string) st o :
  P nl ->
  (st <> absent -> forall b, P (marker b ++ line_value py var val)) ->
  Forall P lines ->
  apply py lines var val st = Ok o ->
  Forall P (env_lines o).
Proof.
  intros Pnl Pw HP H. apply apply_run in H as [_ R].
  assert (G : Forall P (guard_empty lines))
    by (destruct lines; [now repeat constructor | exact HP]).
  destruct R as [ | pre line post _ -> | N | | pre line post N ->];
    cbn [env_lines]; auto.
  - apply Forall_app in HP as [P1 P2]. apply Forall_cons_iff in P2 as [_ P2].
    apply Forall_app. now split.
  - apply Forall_app. split; [exact G|]. constructor; [now apply Pw | constructor].
  - apply Forall_app in HP as [P1 P2]. apply Forall_cons_iff in P2 as [_ P2].
    apply Forall_app. split; [exact P1|].
    constructor; [now apply Pw | now apply prune_Forall].
Qed.

(** A second run on the lines of the first finds nothing to do. *)
Lemma second_run_quiet (lines : list string) st o :
  Forall (fun l => terminated l = true) lines ->
  rereadable py lines var val st ->
  apply py lines var val st = Ok o ->
  exists o', apply py (env_lines o) var val st = Ok o' /\ changed o' = false.
Proof.
  intros HT HR H.
  destruct (absent_or_not st) as [-> | Hst].
  - cbn [rereadable] in HR.
    destruct (apply_keeps_terminated py lines var val absent HT)
      as (o1 & H1 & HT1).
    assert (o1 = o) by congruence. subst o1.
    apply apply_run in H as [_ R].
    destruct R as [ _ Hl | pre line post _ -> Hpre Hline | N | pre line post N
                  | pre line post N]; try (now elim N); cbn [env_lines] in *.
    + assert (A : apply py (guard_empty lines) var val absent
                  = Ok (Outcome (guard_empty lines) false EmptyString)).
      { rewrite (apply_absent_none py var val (guard_empty lines)).
        - now destruct lines.
        - destruct lines; [|exact Hl]. constructor; [|constructor].
          apply guard_line_inactive.
        - now apply guard_terminated. }
      eexists. split; [exact A | reflexivity].
    + pose proof (single_active py var pre line post Hline HR) as Hpost.
      assert (A : apply py (pre ++ post) var val absent
                  = Ok (Outcome (guard_empty (pre ++ post)) false
                                EmptyString)).
      { apply apply_absent_none.
        - apply Forall_app. now split.
        - now apply guard_terminated. }
      eexists. split; [exact A | reflexivity].
  - assert (S : rerun_stable py lines var val st).
    { destruct st; [now elim Hst | | |]; cbn in HR |- *;
        destruct HR as (Hn & Hv & _ & _ & Hx); auto. }
    destruct (rerun_update py var val st lines Hst HT S) as (o1 & H1 & H2).
    assert (o1 = o) by congruence. subst o1.
    eexists. split; [exact H2 | reflexivity].
Qed.

End Twice.

Lemma terminated_append (a b : string) :
  b <> EmptyString -> terminated (a ++ b) = terminated b.
Proof.
  intros Hb. induction a as [|c a IH]; [reflexivity|].
  cbn [append]. rewrite terminated_cons; [exact IH|].
  destruct a; [exact Hb | discriminate].
Qed.

Lemma writelines_terminated (lines : list string) :
  Forall whole_line lines ->
  writelines lines = EmptyString \/ terminated (writelines lines) = true.
Proof.
  induction 1 as [|l ls (body & -> & Hb) _ IH]; [now left|].
  right. cbn [writelines]. destruct IH as [-> | IH].
  - rewrite append_nil_r. apply terminated_app_nl.
  - destruct (writelines ls) eqn:E; [discriminate|].
    rewrite terminated_append; [exact IH | discriminate].
Qed.

Lemma loaded_whole_lines py (t : target) create :
  loadable py t create -> Forall whole_line (lines_of py t).
Proof.
  destruct t as [d | content | bytes]; cbn [loadable lines_of];
    [constructor | | constructor].
  unfold readlines. intros [-> | H]; [constructor|].
  now apply split_whole_lines.
Qed.

Lemma loaded_cr_free py (t : target) :
  Forall (fun l => cr_free py l = true) (lines_of py t).
Proof.
  destruct t; cbn [lines_of];
    [constructor | apply readlines_cr_free | constructor].
Qed.

Lemma load_loadable py m (t : target) create :
  check_mode m = false -> loadable py t create ->
  exists t', load py m t create = inr (lines_of py t, t')
             /\ load py m t' create = inr (lines_of py t, t').
Proof.
  intros Hm. destruct t as [d | content | bytes];
    cbn [loadable load lines_of].
  - intros [-> Hd]. cbn [negb]. rewrite Hm.
    destruct d; [now elim Hd | |]; exists (Missing ParentExists); auto.
  - intros _. exists (File content). auto.
  - intros [].
Qed.

Lemma write_succeeds py (h : host) (text : string) :
  (py = Python3 -> forall t, encodable h t = true) ->
  write_fails py h text = false.
Proof.
  intros H. destruct py; [reflexivity|]. cbn [write_fails].
  now rewrite (H eq_refl).
Qed.

(** The module run twice (outside check mode) on a target that it gets
    through, with a request that fits on one line, on a host whose
    codec (where Python 3 uses one) encodes every text: the first run
    returns, and the second one, on what the first left on disk,
    reports no change and leaves the target as it found it. *)
Theorem target_rerun_quiet py h m (t : target) var val st create backup :
  check_mode m = false ->
  (py = Python3 -> forall text, encodable h text = true) ->
  loadable py t create ->
  rereadable py (lines_of py t) var val st ->
  exists r,
    apply_target py h m t var val st create backup = Return r
    /\ exists r',
        apply_target py h m (r_target r) var val st create backup = Return r'
        /\ r_changed r' = false
        /\ r_target r' = r_target r.
Proof.
  intros Hm He HL HR.
  pose proof (loaded_whole_lines py t create HL) as HW.
  pose proof (loaded_cr_free py t) as HC.
  assert (HT : Forall (fun l => terminated l = true) (lines_of py t))
    by (apply Forall_impl with (2 := HW); apply whole_line_terminated).
  destruct (load_loadable py m t create Hm HL) as (t' & L1 & L2).
  destruct (apply_keeps_terminated py (lines_of py t) var val st HT)
    as (o & Ho & _).
  unfold apply_target at 1.
  rewrite L1, Ho, Hm, (write_succeeds py h _ He). cbn [negb].
  rewrite andb_true_r, andb_false_r.
  eexists. split; [reflexivity|]. cbn [r_target].
  destruct (changed o) eqn:Hc.
  - (* written: read again, nothing to do *)
    destruct (second_run_quiet py var val _ st o HT HR Ho) as (o' & Ho' & Hq).
    assert (W : Forall whole_line (env_lines o)).
    { apply (run_keeps py var val whole_line (lines_of py t) st o); auto.
      - exists EmptyString. auto.
      - intros Hst b. destruct st; [now elim Hst | | |];
          destruct HR as (Hn & Hv & _); now apply written_whole_line. }
    assert (C : Forall (fun l => cr_free py l = true) (env_lines o)).
    { apply (run_keeps py var val (fun l => cr_free py l = true)
                    (lines_of py t) st o); auto.
      - now destruct py.
      - intros Hst b. destruct st; [now elim Hst | | |];
          destruct HR as (_ & _ & Hn & Hv & _); now apply written_cr_free. }
    unfold apply_target, load.
    rewrite (reread_written py _ W C), Ho', Hq. cbn [andb].
    eexists. split; [reflexivity|]. split; reflexivity.
  - (* nothing written: the same run again *)
    unfold apply_target. rewrite L2, Ho, Hc. cbn [andb].
    eexists. split; [reflexivity|]. split; reflexivity.
Qed.

Lemma target_rerun_quiet_witness :
  exists r,
    apply_target Python3 (Host (fun _ => true)) (AnsibleModule false true)
      (File ("# env" ++ nl ++ "FOO=old" ++ nl ++ "FOO=dup" ++ nl))
      "FOO" "a b" present false true = Return r
    /\ exists r',
        apply_target Python3 (Host (fun _ => true))
          (AnsibleModule false true) (r_target r)
          "FOO" "a b" present false true = Return r'
        /\ r_changed r' = false
        /\ r_target r' = r_target r.
Proof.
  apply (target_rerun_quiet Python3 (Host (fun _ => true))
           (AnsibleModule false true)
           (File ("# env" ++ nl ++ "FOO=old" ++ nl ++ "FOO=dup" ++ nl))
           "FOO" "a b" present false true).
  - reflexivity.
  - reflexivity.
  - right. reflexivity.
  - repeat split; try reflexivity.
Defined.

(** Whenever the module writes the target, what it leaves is a file
    that is empty or ends in a newline: it never produces the kind of
    file on which it fails. *)
Theorem target_written_ends_in_newline py h m (t : target) var val st
        create backup r :
  loadable py t create ->
  (st <> absent -> no_newline var = true /\ no_newline val = true) ->
  apply_target py h m t var val st create backup = Return r ->
  r_changed r = true -> check_mode m = false ->
  exists content,
    r_target r = File content
    /\ (content = EmptyString \/ terminated content = true).
Proof.
  intros HL HN H Hc Hm.
  pose proof (loaded_whole_lines py t create HL) as HW.
  destruct (load_loadable py m t create Hm HL) as (t' & L1 & _).
  unfold apply_target in H. rewrite L1 in H.
  destruct (apply py (lines_of py t) var val st) as [o|e] eqn:Ho;
    [|discriminate].
  cbv zeta in H.
  destruct (changed o && negb (check_mode m)
            && write_fails py h (writelines (env_lines o)));
    [discriminate|].
  injection H as <-. cbn [r_changed r_target] in *.
  rewrite Hc, Hm. cbn [negb andb].
  eexists. split; [reflexivity|].
  apply writelines_terminated.
  apply (run_keeps py var val whole_line (lines_of py t) st o); auto.
  - exists EmptyString. auto.
  - intros Hst b. destruct (HN Hst). now apply written_whole_line.
Qed.

Lemma target_written_ends_in_newline_witness :
  exists content,
    r_target (Report true false EmptyString EmptyString "var added"
                (File (nl ++ "export FOO=bar" ++ nl)))
    = File content
    /\ (content = EmptyString \/ terminated content = true).
Proof.
  apply (target_written_ends_in_newline Python3 (Host (fun _ => true))
           (AnsibleModule false false)
           (Missing ParentMissing) "FOO" "bar" present true false).
  - split; [reflexivity | discriminate].
  - intros _. split; reflexivity.
  - reflexivity.
  - reflexivity.
  - reflexivity.
Defined.

(** On Python 3 a value with a carriage return is written on one line
    and read back as two: every further run changes the file again and
    leaves one more stray line. *)
Example target_rerun_carriage_return :
  exists r1 r2 c1 c2,
    apply_target Python3 (Host (fun _ => true)) (AnsibleModule false false)
      (File EmptyString)
      "FOO" (String "a" (String carriage_return "b")) local false false
    = Return r1
    /\ r_target r1 = File c1
    /\ apply_target Python3 (Host (fun _ => true))
         (AnsibleModule false false) (r_target r1)
         "FOO" (String "a" (String carriage_return "b")) local false false
       = Return r2
    /\ r_changed r2 = true
    /\ r_target r2 = File c2
    /\ String.length c2 = (String.length c1 + 3)%nat.
Proof. do 4 eexists. repeat split. Qed.

(** A leading no-break space is a blank for Python 3: a file that
    holds [FOO=1] behind one and a plain [FOO=2] has two active
    declarations there, and two runs of absent both change it. *)
Example target_rerun_no_break_space :
  active_count Python3 "FOO"
    (lines_of Python3
       (File (String "160"%char ("FOO=1" ++ nl ++ "FOO=2" ++ nl))))
  = 2%nat
  /\ exists r1 r2,
      apply_target Python3 (Host (fun _ => true)) (AnsibleModule false false)
        (File (String "160"%char ("FOO=1" ++ nl ++ "FOO=2" ++ nl)))
        "FOO" EmptyString absent false false = Return r1
      /\ apply_target Python3 (Host (fun _ => true))
           (AnsibleModule false false) (r_target r1)
           "FOO" EmptyString absent false false = Return r2
      /\ r_changed r2 = true.
Proof. split; [reflexivity|]. do 2 eexists. repeat split. Qed.
